(** * wordpan: the client-side collection synchronizers

    A shallow embedding of the three React hooks of the web client,
    [useFlashcards], [useFavoriteWords] and [useWordPairs] (with its helper
    [makeAuthenticatedRequest]), and of the parts of the SQL migrations that
    decide how the remote store answers them.

    Conventions of the embedding.
    - An [async] function is a tree of [Await] nodes: each node names the
      remote request that is awaited and continues with the way the promise
      settles, fulfilled with a value or rejected with a thrown value.
    - The hook's closure is passed explicitly: the [user] of the user
      context and the state cells as they were at the render in which the
      function was created.  A function returns the state cells after all
      its setters have run, next to its own return value.
    - JS strings are [string]s (text outside ASCII in its UTF-8 bytes).
      The built-in functions that the code calls on them, [trim] and
      [toLowerCase], belong to the JavaScript engine and are parameters
      of the embedding ([Engine]); what they do on ASCII text is written
      out in [AsciiText].
    - JS integers ([number]s holding counts and indices) are [Z]. *)

From Stdlib Require Import ZArith Lia Ascii String Sorted.
From stdpp Require Import base list strings gmap pretty.

Local Open Scope string_scope.
Local Open Scope list_scope.

(** ** JavaScript values the hooks rely on *)

Module Js.

(** A thrown value.  [is_Error] is the answer of [err instanceof Error];
    [code] is the [code] property (the SQLSTATE of a store error). *)
Record Thrown : Type := mkThrown {
  is_Error : bool;
  message : string;
  code : option string
}.

(** [new Error(msg)] *)
Definition new_Error (msg : string) : Thrown := mkThrown true msg None.

(** [err instanceof Error ? err : new Error(fallback)] *)
Definition as_Error (fallback : string) (err : Thrown) : Thrown :=
  if is_Error err then err else new_Error fallback.

(** [err instanceof Error ? err.message : fallback] *)
Definition message_or (fallback : string) (err : Thrown) : string :=
  if is_Error err then message err else fallback.

(** The built-in functions of the JavaScript engine that the code relies
    on: [String.prototype.trim], [String.prototype.toLowerCase], and the
    message of the [TypeError] that the engine throws when a property is
    read from [null] (given the name of the property). *)
Class Engine : Type := {
  trim : string -> string;
  toLowerCase : string -> string;
  null_read : string -> string
}.

(** [Set.prototype.add] on an insertion-ordered set of strings. *)
Definition Set_add (s : list string) (x : string) : list string :=
  if bool_decide (x ∈ s) then s else s ++ [x].

(** [[...new Set(l)]]: the elements of [l] in order of first occurrence. *)
Definition new_Set (l : list string) : list string := fold_left Set_add l [].

(** [l.includes(x)] *)
Definition includes (l : list string) (x : string) : bool := bool_decide (x ∈ l).

End Js.

(** ** What the built-in string functions do on ASCII text *)

Module AsciiText.

(** The white space of ASCII: TAB, LF, VT, FF, CR and SP. *)
Definition is_white_space (c : ascii) : bool :=
  let n := nat_of_ascii c in
  (((9 <=? n) && (n <=? 13)) || (n =? 32))%nat.

Fixpoint trimStart (s : string) : string :=
  match s with
  | EmptyString => EmptyString
  | String c s' => if is_white_space c then trimStart s' else s
  end.

Definition trimEnd (s : string) : string :=
  String.rev (trimStart (String.rev s)).

Definition trim (s : string) : string := trimEnd (trimStart s).

(** Lower case of one ASCII character: A..Z move to a..z. *)
Definition lower_char (c : ascii) : ascii :=
  let n := nat_of_ascii c in
  if ((65 <=? n) && (n <=? 90))%nat then ascii_of_nat (n + 32) else c.

Fixpoint toLowerCase (s : string) : string :=
  match s with
  | EmptyString => EmptyString
  | String c s' => String (lower_char c) (toLowerCase s')
  end.

(** Every character is below 128. *)
Fixpoint is_ascii_text (s : string) : bool :=
  match s with
  | EmptyString => true
  | String c s' => (nat_of_ascii c <? 128)%nat && is_ascii_text s'
  end.

(** An engine that is right on ASCII text (and only there), with the
    wording that V8 gives to the [TypeError]. *)
Definition engine : Js.Engine :=
  {| Js.trim := trim;
     Js.toLowerCase := toLowerCase;
     Js.null_read := fun prop =>
       String.append "Cannot read properties of null (reading '" (String.append prop "')") |}.

End AsciiText.

(** ** Asynchronous functions *)

Module Async.
Import Js.

(** How an awaited promise settles. *)
Inductive Outcome (X : Type) : Type :=
| Fulfilled (x : X)
| Rejected (err : Thrown).
Arguments Fulfilled {X} x.
Arguments Rejected {X} err.

(** An async function over the remote requests [E]: it returns, or awaits
    one request and goes on with the outcome. *)
Inductive Async (E : Type -> Type) (A : Type) : Type :=
| Ret (a : A)
| Await (X : Type) (e : E X) (k : Outcome X -> Async E A).
Arguments Ret {E A} a.
Arguments Await {E A X} e k.

Fixpoint bind {E A B} (m : Async E A) (f : A -> Async E B) : Async E B :=
  match m with
  | Ret a => f a
  | Await e k => Await e (fun o => bind (k o) f)
  end.

(** A request together with the type of its answer. *)
Definition Call (E : Type -> Type) : Type := { X : Type & E X }.

Definition call {E : Type -> Type} {X : Type} (e : E X) : Call E := existT X e.

(** The remote side: it settles every request, and may change over time. *)
Definition Remote (E : Type -> Type) (W : Type) : Type :=
  forall X : Type, E X -> W -> Outcome X * W.

Record Run (A W : Type) (E : Type -> Type) : Type := mkRun {
  returned : A;
  world : W;
  calls : list (Call E)
}.
Arguments mkRun {A W E} returned world calls.
Arguments returned {A W E} r.
Arguments world {A W E} r.
Arguments calls {A W E} r.

(** Running an async function against a remote side: the value it returns,
    the remote side afterwards, and the requests issued, in order. *)
Fixpoint run {E W A} (remote : Remote E W) (m : Async E A) (w : W) : Run A W E :=
  match m with
  | Ret a => mkRun a w []
  | Await e k =>
      let '(o, w1) := remote _ e w in
      let r := run remote (k o) w1 in
      mkRun (returned r) (world r) (call e :: calls r)
  end.

End Async.

(** ** The Supabase client *)

Module Supabase.
Import Js.

(** What a query builder resolves to: [{ data, error }]. *)
Record Reply (D : Type) : Type := mkReply {
  data : option D;
  error : option Thrown
}.
Arguments mkReply {D} data error.
Arguments data {D} r.
Arguments error {D} r.

(** What a query ended by [.single()] resolves to: exactly one row and no
    error, or an error and no row. *)
Inductive Single (D : Type) : Type :=
| Row (row : D)
| NoRow (err : Thrown).
Arguments Row {D} row.
Arguments NoRow {D} err.

Record Session : Type := mkSession {
  access_token : string;
  session_user_id : string
}.

(** The user of the user context. *)
Record User : Type := mkUser { user_id : string }.

(** SQLSTATE of a unique-constraint violation, and of a row refused by a
    row-level security policy. *)
Definition unique_violation : string := "23505".
Definition insufficient_privilege : string := "42501".

(** The error object of a failed query.  Whether it is an instance of
    [Error] depends on the version of the client library, so it is left to
    the caller. *)
Definition store_error (is_err : bool) (sqlstate msg : string) : Thrown :=
  mkThrown is_err msg (Some sqlstate).

End Supabase.

(** ** [useFavoriteWords] *)

Module FavoriteWords.
Import Js Async Supabase.

(** A row of [select('word')]. *)
Record FavoriteRow : Type := mkFavoriteRow { word : string }.

(** The queries the hook sends to the table [favorite_words]. *)
Inductive favoritesE : Type -> Type :=
| SelectFavorites (uid : string) : favoritesE (Reply (list FavoriteRow))
| InsertFavorite (uid w : string) : favoritesE (Reply unit)
| DeleteFavorite (uid w : string) : favoritesE (Reply unit).

(** The state cells of the hook. *)
Record State : Type := mkState {
  favorites : list string;
  loading : bool;
  error : option Thrown
}.

Definition setFavorites (v : list string) (st : State) : State :=
  mkState v (loading st) (error st).
Definition setLoading (v : bool) (st : State) : State :=
  mkState (favorites st) v (error st).
Definition setError (v : option Thrown) (st : State) : State :=
  mkState (favorites st) (loading st) v.

Section WithEngine.
Context `{!Engine}.

(** [word.trim().toLowerCase()] *)
Definition normalize (w : string) : string := toLowerCase (trim w).

Definition fetchFavorites (user : option User) (st : State) : Async favoritesE State :=
  match user with
  | None => Ret st
  | Some u =>
      let st := setError None (setLoading true st) in
      let catch err := setError (Some (as_Error "Failed to fetch favorites" err)) st in
      Await (SelectFavorites (user_id u)) (fun o =>
        let st' :=
          match o with
          | Rejected err => catch err
          | Fulfilled r =>
              match Supabase.error r with
              | Some supabaseError => catch supabaseError
              | None => setFavorites (map word (default [] (data r))) st
              end
          end in
        Ret (setLoading false st'))
  end.

Definition addFavorite (user : option User) (st : State) (w : string)
  : Async favoritesE (State * bool) :=
  match user with
  | None => Ret (st, false)
  | Some u =>
      let catch err := (setError (Some (as_Error "Failed to add favorite" err)) st, false) in
      Await (InsertFavorite (user_id u) (normalize w)) (fun o =>
        Ret match o with
            | Rejected err => catch err
            | Fulfilled r =>
                match Supabase.error r with
                | Some supabaseError =>
                    if bool_decide (code supabaseError = Some "23505")
                    then (setFavorites (new_Set (favorites st ++ [normalize w])) st, true)
                    else catch supabaseError
                | None => (setFavorites (new_Set (normalize w :: favorites st)) st, true)
                end
            end)
  end.

Definition removeFavorite (user : option User) (st : State) (w : string)
  : Async favoritesE (State * bool) :=
  match user with
  | None => Ret (st, false)
  | Some u =>
      let catch err := (setError (Some (as_Error "Failed to remove favorite" err)) st, false) in
      Await (DeleteFavorite (user_id u) (normalize w)) (fun o =>
        Ret match o with
            | Rejected err => catch err
            | Fulfilled r =>
                match Supabase.error r with
                | Some supabaseError => catch supabaseError
                | None =>
                    (setFavorites (filter (fun x => x ≠ normalize w) (favorites st)) st, true)
                end
            end)
  end.

Definition isFavorite (st : State) (w : string) : bool :=
  includes (favorites st) (normalize w).

(** Successive calls of [addFavorite], one word after the other, each call
    made from the render that follows the previous one. *)
Fixpoint addFavorite_each (user : option User) (st : State) (ws : list string)
  : Async favoritesE State :=
  match ws with
  | [] => Ret st
  | w :: ws' => bind (addFavorite user st w) (fun r => addFavorite_each user (fst r) ws')
  end.

End WithEngine.

(** The table [favorite_words] of the migration, as the store keeps it:
    [unique(user_id, word)], and one policy for all commands,
    [using (auth.uid() = user_id) with check (auth.uid() = user_id)].
    Rows are kept newest first, the order of [created_at] descending. *)
Record Store : Type := mkStore {
  auth_uid : option string;
  favorite_words : list (string * string);
  errors_are_Error : bool
}.

Definition visible (db : Store) (row : string * string) : Prop :=
  auth_uid db = Some (fst row).

#[export] Instance favorite_visible_dec db row : Decision (visible db row).
Proof. unfold visible. apply _. Defined.

Definition store : Remote favoritesE Store :=
  fun X e =>
    match e in favoritesE X return Store -> Outcome X * Store with
    | SelectFavorites uid => fun db =>
        let rows := filter (fun row => visible db row ∧ fst row = uid) (favorite_words db) in
        (Fulfilled (mkReply (Some (map (fun row => mkFavoriteRow (snd row)) rows)) None), db)
    | InsertFavorite uid w => fun db =>
        if bool_decide (auth_uid db = Some uid) then
          if bool_decide ((uid, w) ∈ favorite_words db) then
            (Fulfilled (mkReply None (Some (store_error (errors_are_Error db) unique_violation
               "duplicate key value violates unique constraint"))), db)
          else
            (Fulfilled (mkReply None None),
             mkStore (auth_uid db) ((uid, w) :: favorite_words db) (errors_are_Error db))
        else
          (Fulfilled (mkReply None (Some (store_error (errors_are_Error db) insufficient_privilege
             "new row violates row-level security policy"))), db)
    | DeleteFavorite uid w => fun db =>
        (Fulfilled (mkReply None None),
         mkStore (auth_uid db)
           (filter (fun row => ¬ (visible db row ∧ row = (uid, w))) (favorite_words db))
           (errors_are_Error db))
    end.

End FavoriteWords.

(** ** [useFlashcards] *)

Module Flashcards.
Import Js Async Supabase.

Module FlashcardDeck.
Record t : Type := mk {
  id : string;
  name : string;
  description : option string;
  created_at : string;
  updated_at : string;
  card_count : option Z
}.
End FlashcardDeck.

Module FlashcardCard.
Record t : Type := mk {
  id : string;
  deck_id : string;
  front : string;
  back : string;
  order_index : Z;
  created_at : string;
  updated_at : string
}.
End FlashcardCard.

Module FlashcardProgress.
Record t : Type := mk {
  id : string;
  card_id : string;
  correct_count : Z;
  incorrect_count : Z;
  last_reviewed_at : option string
}.
End FlashcardProgress.

(** A row of [flashcard_decks] as a query returns it.  [flashcard_cards] is
    the embedded aggregate [flashcard_cards(count)]: absent when it was not
    selected, else a list of objects whose [count] may be null. *)
Module DeckRow.
Record t : Type := mk {
  id : string;
  name : string;
  description : option string;
  created_at : string;
  updated_at : string;
  flashcard_cards : option (list (option Z))
}.
End DeckRow.

(** The queries sent to [flashcard_decks], and the session look-up that
    [deleteDeck] makes first. *)
Inductive decksE : Type -> Type :=
| SelectDecks (uid : string) : decksE (Reply (list DeckRow.t))
| InsertDeck (uid name : string) (description : option string) : decksE (Single DeckRow.t)
| GetSession : decksE (Reply (option Session))
| DeleteDeck (deckId : string) : decksE (Reply (list DeckRow.t)).

(** The queries sent to [flashcard_cards]. *)
Inductive cardsE : Type -> Type :=
| SelectCards (deckId : string) : cardsE (Reply (list FlashcardCard.t))
| InsertCard (deckId front back : string) (order_index : Z) : cardsE (Single FlashcardCard.t)
| DeleteCard (cardId : string) : cardsE (Reply unit)
| UpdateCard (cardId front back updated_at : string) : cardsE (Single FlashcardCard.t).

(** The queries sent to [flashcard_progress]. *)
Inductive progressE : Type -> Type :=
| SelectProgress (uid deckId : string) : progressE (Reply (list FlashcardProgress.t))
| UpdateProgress (id : string) (correct_count incorrect_count : Z)
    (last_reviewed_at updated_at : string) : progressE (Reply unit)
| InsertProgress (uid cardId deckId : string) (correct_count incorrect_count : Z)
    (last_reviewed_at : string) : progressE (Reply unit).

(** The state cells of the hook.  [progress] is a JS object used as a map
    from card ids to records; the ids are UUIDs, so no key meets a property
    of [Object.prototype]. *)
Record State : Type := mkState {
  decks : list FlashcardDeck.t;
  cards : list FlashcardCard.t;
  progress : gmap string FlashcardProgress.t;
  loading : bool;
  error : option Thrown
}.

Definition setDecks (v : list FlashcardDeck.t) (st : State) : State :=
  mkState v (cards st) (progress st) (loading st) (error st).
Definition setCards (v : list FlashcardCard.t) (st : State) : State :=
  mkState (decks st) v (progress st) (loading st) (error st).
Definition setProgress (v : gmap string FlashcardProgress.t) (st : State) : State :=
  mkState (decks st) (cards st) v (loading st) (error st).
Definition setLoading (v : bool) (st : State) : State :=
  mkState (decks st) (cards st) (progress st) v (error st).
Definition setError (v : option Thrown) (st : State) : State :=
  mkState (decks st) (cards st) (progress st) (loading st) v.

(** The readings of [new Date().toISOString()] during one call, in the
    order in which they are taken. *)
Definition Clock : Type := nat -> string.

(** [deck.flashcard_cards?.[0]?.count || 0] *)
Definition count_of (embedded : option (list (option Z))) : Z :=
  match embedded with
  | Some (Some n :: _) => n
  | _ => 0
  end.

Definition deck_with_count (deck : DeckRow.t) : FlashcardDeck.t :=
  FlashcardDeck.mk (DeckRow.id deck) (DeckRow.name deck) (DeckRow.description deck)
    (DeckRow.created_at deck) (DeckRow.updated_at deck)
    (Some (count_of (DeckRow.flashcard_cards deck))).

Definition fetchDecks (user : option User) (st : State) : Async decksE State :=
  match user with
  | None => Ret st
  | Some u =>
      let st := setError None (setLoading true st) in
      let catch err := setError (Some (as_Error "Failed to fetch decks" err)) st in
      Await (SelectDecks (user_id u)) (fun o =>
        let st' :=
          match o with
          | Rejected err => catch err
          | Fulfilled r =>
              match Supabase.error r with
              | Some supabaseError => catch supabaseError
              | None => setDecks (map deck_with_count (default [] (data r))) st
              end
          end in
        Ret (setLoading false st'))
  end.

Definition fetchCards (user : option User) (st : State) (deckId : string)
  : Async cardsE State :=
  let st := setError None (setLoading true st) in
  let catch err := setError (Some (as_Error "Failed to fetch cards" err)) st in
  Await (SelectCards deckId) (fun o =>
    let st' :=
      match o with
      | Rejected err => catch err
      | Fulfilled r =>
          match Supabase.error r with
          | Some supabaseError => catch supabaseError
          | None => setCards (default [] (data r)) st
          end
      end in
    Ret (setLoading false st')).

(** [progressMap[p.card_id] = p] for every row, in order. *)
Definition progressMap (rows : list FlashcardProgress.t) : gmap string FlashcardProgress.t :=
  fold_left (fun m p => <[FlashcardProgress.card_id p := p]> m) rows ∅.

Definition fetchProgress (user : option User) (st : State) (deckId : string)
  : Async progressE State :=
  match user with
  | None => Ret st
  | Some u =>
      Await (SelectProgress (user_id u) deckId) (fun o =>
        Ret match o with
            | Rejected _ => st
            | Fulfilled r =>
                match Supabase.error r with
                | Some _ => st
                | None => setProgress (progressMap (default [] (data r))) st
                end
            end)
  end.

Definition createDeck (user : option User) (st : State)
  (name : string) (description : option string)
  : Async decksE (State * option FlashcardDeck.t) :=
  match user with
  | None => Ret (st, None)
  | Some u =>
      let catch err := (setError (Some (as_Error "Failed to create deck" err)) st, None) in
      Await (InsertDeck (user_id u) name description) (fun o =>
        Ret match o with
            | Rejected err => catch err
            | Fulfilled (NoRow supabaseError) => catch supabaseError
            | Fulfilled (Row data) =>
                let newDeck :=
                  FlashcardDeck.mk (DeckRow.id data) (DeckRow.name data)
                    (DeckRow.description data) (DeckRow.created_at data)
                    (DeckRow.updated_at data) (Some 0%Z) in
                (setDecks (newDeck :: decks st) st, Some newDeck)
            end)
  end.

Definition deleteDeck (user : option User) (st : State) (deckId : string)
  : Async decksE (State * bool) :=
  match user with
  | None => Ret (setError (Some (new_Error "User not authenticated")) st, false)
  | Some u =>
      let catch err := (setError (Some (as_Error "Failed to delete deck" err)) st, false) in
      Await GetSession (fun o =>
        match o with
        | Rejected err => Ret (catch err)
        | Fulfilled _ =>
            Await (DeleteDeck deckId) (fun o =>
              Ret match o with
                  | Rejected err => catch err
                  | Fulfilled r =>
                      match Supabase.error r with
                      | Some supabaseError => catch supabaseError
                      | None =>
                          match data r with
                          | None | Some [] =>
                              (setError (Some (new_Error
                                 "Deck not found or you don't have permission to delete it")) st,
                               false)
                          | Some (_ :: _) =>
                              (setDecks
                                 (filter (fun d => FlashcardDeck.id d ≠ deckId) (decks st)) st,
                               true)
                          end
                      end
                  end)
        end)
  end.

Definition addCard (user : option User) (st : State) (deckId front back : string)
  : Async cardsE (State * option FlashcardCard.t) :=
  let catch err := (setError (Some (as_Error "Failed to add card" err)) st, None) in
  Await (InsertCard deckId front back (Z.of_nat (length (cards st)))) (fun o =>
    Ret match o with
        | Rejected err => catch err
        | Fulfilled (NoRow supabaseError) => catch supabaseError
        | Fulfilled (Row data) => (setCards (cards st ++ [data]) st, Some data)
        end).

Definition deleteCard (user : option User) (st : State) (cardId : string)
  : Async cardsE (State * bool) :=
  let catch err := (setError (Some (as_Error "Failed to delete card" err)) st, false) in
  Await (DeleteCard cardId) (fun o =>
    Ret match o with
        | Rejected err => catch err
        | Fulfilled r =>
            match Supabase.error r with
            | Some supabaseError => catch supabaseError
            | None =>
                (setCards (filter (fun c => FlashcardCard.id c ≠ cardId) (cards st)) st, true)
            end
        end).

Definition updateCard (user : option User) (st : State) (now : Clock)
  (cardId front back : string)
  : Async cardsE (State * option FlashcardCard.t) :=
  let catch err := (setError (Some (as_Error "Failed to update card" err)) st, None) in
  Await (UpdateCard cardId front back (now 0)) (fun o =>
    Ret match o with
        | Rejected err => catch err
        | Fulfilled (NoRow supabaseError) => catch supabaseError
        | Fulfilled (Row data) =>
            (setCards
               (map (fun c => if bool_decide (FlashcardCard.id c = cardId) then data else c)
                  (cards st)) st,
             Some data)
        end).

Definition recordProgress (user : option User) (st : State) (now : Clock)
  (cardId deckId : string) (correct : bool)
  : Async progressE (State * bool) :=
  match user with
  | None => Ret (st, false)
  | Some u =>
      let refetch := bind (fetchProgress user st deckId) (fun st' => Ret (st', true)) in
      let settled (o : Outcome (Reply unit)) :=
        match o with
        | Rejected _ => Ret (st, false)
        | Fulfilled r =>
            match Supabase.error r with
            | Some _ => Ret (st, false)
            | None => refetch
            end
        end in
      match progress st !! cardId with
      | Some existing =>
          Await (UpdateProgress (FlashcardProgress.id existing)
                   (FlashcardProgress.correct_count existing + (if correct then 1 else 0))
                   (FlashcardProgress.incorrect_count existing + (if correct then 0 else 1))
                   (now 0) (now 1))
            settled
      | None =>
          Await (InsertProgress (user_id u) cardId deckId
                   (if correct then 1 else 0) (if correct then 0 else 1) (now 0))
            settled
      end
  end.

End Flashcards.

(** ** [useWordPairs] and [makeAuthenticatedRequest] *)

Module WordPairs.
Import Js Async Supabase.

(** A row of [word_pairs], with the columns of the migration. *)
Module WordPair.
Record t : Type := mk {
  id : string;
  user_id : string;
  word1 : string;
  word2 : string;
  pair_type : string;
  description : option string;
  created_at : string;
  updated_at : string
}.
End WordPair.

Record WordPairsResponse : Type := mkWordPairsResponse {
  data : list WordPair.t;
  count : Z;
  page : Z;
  limit : Z
}.

Record Pagination : Type := mkPagination {
  p_page : Z;
  p_limit : Z;
  total : Z
}.

Record State : Type := mkState {
  pairs : list WordPair.t;
  loading : bool;
  error : option string;
  pagination : Pagination
}.

(** The state the hook starts from. *)
Definition initial : State := mkState [] false None (mkPagination 1 20 0).

(** A JSON object sent as a request body: its properties, in order, each a
    string or [null]. *)
Definition JsonObject : Type := list (string * option string).

Record Request : Type := mkRequest {
  url : string;
  method : string;
  headers : list (string * string);
  body : option JsonObject
}.

(** The value of the [error] property of a parsed error body: a string, or
    some other value, of which only its truthiness and its conversion to a
    string matter. *)
Inductive JsVal : Type :=
| JsString (s : string)
| JsOther (truthy : bool) (as_string : string).

Definition truthy (v : JsVal) : bool :=
  match v with
  | JsString s => negb (bool_decide (s = ""))
  | JsOther b _ => b
  end.

Definition String_of (v : JsVal) : string :=
  match v with
  | JsString s => s
  | JsOther _ s => s
  end.

(** The body of a response whose status is not a success, as
    [response.json()] finds it: not JSON at all, the JSON value [null], or
    any other JSON value with its [error] property, if it has one. *)
Inductive ErrorBody : Type :=
| NotJson
| JsonNull
| Json (error : option JsVal).

(** An HTTP response read as [T]: [response.ok] with a body that parses, or
    with a body on which [response.json()] rejects, or not [response.ok]
    with its [statusText] and body. *)
Inductive Response (T : Type) : Type :=
| Ok (payload : T)
| OkNotJson (err : Thrown)
| NotOk (statusText : string) (errorBody : ErrorBody).
Arguments Ok {T} payload.
Arguments OkNotJson {T} err.
Arguments NotOk {T} statusText errorBody.

(** The type argument [<T>] of a call of [makeAuthenticatedRequest]: what
    the caller reads the response body as. *)
Inductive Shape : Type -> Type :=
| AsWordPairsResponse : Shape WordPairsResponse
| AsWordPair : Shape WordPair.t
| AsVoid : Shape unit.

Inductive httpE : Type -> Type :=
| GetSession : httpE (option Session)
| Fetch (T : Type) (shape : Shape T) (req : Request) : httpE (Response T).
Arguments Fetch {T} shape req.

Section Service.
Context `{!Engine}.

(** The [TypeError] of reading a property of [null]. *)
Definition null_TypeError (prop : string) : Thrown := new_Error (null_read prop).

(** [import.meta.env.VITE_AI_SERVICE_URL || 'http://localhost:8000'] *)
Variable AI_SERVICE_URL : string.

Definition makeAuthenticatedRequest {T : Type} (shape : Shape T)
  (method endpoint : string) (body : option JsonObject)
  : Async httpE (Outcome T) :=
  Await GetSession (fun o =>
    match o with
    | Rejected err => Ret (Rejected err)
    | Fulfilled None => Ret (Rejected (new_Error "User must be authenticated"))
    | Fulfilled (Some session) =>
        Await (Fetch shape (mkRequest (AI_SERVICE_URL +:+ endpoint) method
                 [("Content-Type", "application/json");
                  ("Authorization", "Bearer " +:+ access_token session)]
                 body))
          (fun o =>
             Ret match o with
                 | Rejected err => Rejected err
                 | Fulfilled (Ok payload) => Fulfilled payload
                 | Fulfilled (OkNotJson err) => Rejected err
                 | Fulfilled (NotOk statusText errorBody) =>
                     match errorBody with
                     | NotJson => Rejected (new_Error "Unknown error")
                     | JsonNull => Rejected (null_TypeError "error")
                     | Json errorData_error =>
                         match errorData_error with
                         | Some v =>
                             if truthy v then Rejected (new_Error (String_of v))
                             else Rejected (new_Error ("Request failed: " +:+ statusText))
                         | None => Rejected (new_Error ("Request failed: " +:+ statusText))
                         end
                     end
                 end)
    end).

Definition fetchWordPairs (st : State) (page limit : option Z) : Async httpE State :=
  let page := default 1%Z page in
  let limit := default 20%Z limit in
  let st := mkState (pairs st) true None (pagination st) in
  bind (makeAuthenticatedRequest AsWordPairsResponse "GET"
          ("/api/word-pairs?page=" +:+ pretty page +:+ "&limit=" +:+ pretty limit) None)
    (fun o =>
       Ret match o with
           | Fulfilled response =>
               mkState (data response) false (error st)
                 (mkPagination (WordPairs.page response) (WordPairs.limit response)
                    (count response))
           | Rejected err =>
               mkState (pairs st) false (Some (message_or "Failed to fetch word pairs" err))
                 (pagination st)
           end).

(** [description?.trim() || null] *)
Definition trimmed_or_null (description : option string) : option string :=
  match description with
  | Some d => if bool_decide (trim d = "") then None else Some (trim d)
  | None => None
  end.

Definition createWordPair (st : State) (word1 word2 : string)
  (pairType : option string) (description : option string)
  : Async httpE (State * Outcome WordPair.t) :=
  let pairType := default "custom" pairType in
  let st := mkState (pairs st) true None (pagination st) in
  let payload : JsonObject :=
    [("word1", Some (trim word1)); ("word2", Some (trim word2));
     ("pair_type", Some pairType); ("description", trimmed_or_null description);
     ("user_id", Some "")] in
  bind (makeAuthenticatedRequest AsWordPair "POST" "/api/word-pairs" (Some payload))
    (fun o =>
       Ret match o with
           | Fulfilled newPair =>
               (mkState (newPair :: pairs st) false (error st)
                  (mkPagination (p_page (pagination st)) (p_limit (pagination st))
                     (total (pagination st) + 1)),
                Fulfilled newPair)
           | Rejected err =>
               (mkState (pairs st) false (Some (message_or "Failed to create word pair" err))
                  (pagination st),
                Rejected err)
           end).

(** The [updates] argument of [updateWordPair]: every property may be
    absent; [u_description] tells a present [null] from an absent one. *)
Record Updates : Type := mkUpdates {
  u_word1 : option string;
  u_word2 : option string;
  u_pair_type : option string;
  u_description : option (option string)
}.

(** [if (x) payload[key] = f(x)] for a string [x]: the empty string is falsy. *)
Definition when_truthy (key : string) (x : option string) (f : string -> string)
  : JsonObject :=
  match x with
  | Some s => if bool_decide (s = "") then [] else [(key, Some (f s))]
  | None => []
  end.

Definition updatePayload (updates : Updates) : JsonObject :=
  (when_truthy "word1" (u_word1 updates) trim ++
   when_truthy "word2" (u_word2 updates) trim ++
   when_truthy "pair_type" (u_pair_type updates) (fun t => t) ++
   match u_description updates with
   | Some d => [("description", trimmed_or_null d)]
   | None => []
   end)%list.

Definition updateWordPair (st : State) (pairId : string) (updates : Updates)
  : Async httpE (State * Outcome WordPair.t) :=
  let st := mkState (pairs st) true None (pagination st) in
  bind (makeAuthenticatedRequest AsWordPair "PUT" ("/api/word-pairs/" +:+ pairId)
          (Some (updatePayload updates)))
    (fun o =>
       Ret match o with
           | Fulfilled updatedPair =>
               (mkState
                  (map (fun p => if bool_decide (WordPair.id p = pairId) then updatedPair else p)
                     (pairs st))
                  false (error st) (pagination st),
                Fulfilled updatedPair)
           | Rejected err =>
               (mkState (pairs st) false (Some (message_or "Failed to update word pair" err))
                  (pagination st),
                Rejected err)
           end).

Definition deleteWordPair (st : State) (pairId : string)
  : Async httpE (State * Outcome unit) :=
  let st := mkState (pairs st) true None (pagination st) in
  bind (makeAuthenticatedRequest AsVoid "DELETE" ("/api/word-pairs/" +:+ pairId) None)
    (fun o =>
       Ret match o with
           | Fulfilled _ =>
               (mkState (filter (fun p => WordPair.id p ≠ pairId) (pairs st)) false (error st)
                  (mkPagination (p_page (pagination st)) (p_limit (pagination st))
                     (Z.max 0 (total (pagination st) - 1))),
                Fulfilled tt)
           | Rejected err =>
               (mkState (pairs st) false (Some (message_or "Failed to delete word pair" err))
                  (pagination st),
                Rejected err)
           end).

End Service.

End WordPairs.

(** ** The flashcard tables of the migration *)

(** [flashcard_progress]: [UNIQUE(user_id, card_id)], and policies for
    SELECT, INSERT and UPDATE that all require [auth.uid() = user_id].  The
    two timestamps that the store fills in by itself are left out, and the
    cards and decks that rows refer to are taken to exist. *)
Module ProgressStore.
Import Js Async Supabase Flashcards.

Record Row : Type := mkRow {
  id : string;
  user_id : string;
  card_id : string;
  deck_id : string;
  correct_count : Z;
  incorrect_count : Z;
  last_reviewed_at : option string
}.

Record t : Type := mk {
  auth_uid : option string;
  flashcard_progress : list Row;
  gen_random_uuid : list Row -> string;
  errors_are_Error : bool
}.

Definition visible (db : t) (row : Row) : Prop := auth_uid db = Some (user_id row).

#[export] Instance progress_visible_dec db row : Decision (visible db row).
Proof. unfold visible. apply _. Defined.

Definition select_star (row : Row) : FlashcardProgress.t :=
  FlashcardProgress.mk (id row) (card_id row) (correct_count row) (incorrect_count row)
    (last_reviewed_at row).

Definition set_counts (c i : Z) (reviewed : string) (row : Row) : Row :=
  mkRow (id row) (user_id row) (card_id row) (deck_id row) c i (Some reviewed).

Definition with_rows (db : t) (rows : list Row) : t :=
  mk (auth_uid db) rows (gen_random_uuid db) (errors_are_Error db).

Definition store : Remote progressE t :=
  fun X e =>
    match e in progressE X return t -> Outcome X * t with
    | SelectProgress uid deckId => fun db =>
        let rows :=
          filter (fun row => visible db row ∧ user_id row = uid ∧ deck_id row = deckId)
            (flashcard_progress db) in
        (Fulfilled (mkReply (Some (map select_star rows)) None), db)
    | UpdateProgress pid c i reviewed _ => fun db =>
        (Fulfilled (mkReply None None),
         with_rows db
           (map (fun row =>
                   if bool_decide (visible db row ∧ id row = pid)
                   then set_counts c i reviewed row else row)
              (flashcard_progress db)))
    | InsertProgress uid cardId deckId c i reviewed => fun db =>
        if bool_decide (auth_uid db = Some uid) then
          if bool_decide (Exists (fun row => user_id row = uid ∧ card_id row = cardId)
                            (flashcard_progress db)) then
            (Fulfilled (mkReply None (Some (store_error (errors_are_Error db) unique_violation
               "duplicate key value violates unique constraint"))), db)
          else
            (Fulfilled (mkReply None None),
             with_rows db
               (flashcard_progress db ++
                [mkRow (gen_random_uuid db (flashcard_progress db)) uid cardId deckId c i
                   (Some reviewed)]))
        else
          (Fulfilled (mkReply None (Some (store_error (errors_are_Error db) insufficient_privilege
             "new row violates row-level security policy"))), db)
    end.

End ProgressStore.

(** [flashcard_cards]: every policy requires that the deck of the card
    belongs to the session's user; [owned_decks] are the ids of those
    decks.  [now] is the store's clock for the column defaults. *)
Module CardStore.
Import Js Async Supabase Flashcards.

Record t : Type := mk {
  owned_decks : list string;
  flashcard_cards : list FlashcardCard.t;
  gen_random_uuid : list FlashcardCard.t -> string;
  now : string;
  errors_are_Error : bool
}.

Definition visible (db : t) (row : FlashcardCard.t) : Prop :=
  FlashcardCard.deck_id row ∈ owned_decks db.

#[export] Instance card_visible_dec db row : Decision (visible db row).
Proof. unfold visible. apply _. Defined.

Definition with_rows (db : t) (rows : list FlashcardCard.t) : t :=
  mk (owned_decks db) rows (gen_random_uuid db) (now db) (errors_are_Error db).

(** [ORDER BY order_index ASC]; SQL leaves the order among equal indices
    open (here the later row of the table comes first). *)
Fixpoint insert_by_order_index (c : FlashcardCard.t) (sorted : list FlashcardCard.t)
  : list FlashcardCard.t :=
  match sorted with
  | [] => [c]
  | d :: sorted' =>
      if (FlashcardCard.order_index c <? FlashcardCard.order_index d)%Z
      then c :: sorted
      else d :: insert_by_order_index c sorted'
  end.

Definition order_by_order_index (rows : list FlashcardCard.t) : list FlashcardCard.t :=
  foldr insert_by_order_index [] rows.

Definition set_sides (front back updated_at : string) (row : FlashcardCard.t)
  : FlashcardCard.t :=
  FlashcardCard.mk (FlashcardCard.id row) (FlashcardCard.deck_id row) front back
    (FlashcardCard.order_index row) (FlashcardCard.created_at row) updated_at.

Definition store : Remote cardsE t :=
  fun X e =>
    match e in cardsE X return t -> Outcome X * t with
    | SelectCards deckId => fun db =>
        let rows :=
          filter (fun row => visible db row ∧ FlashcardCard.deck_id row = deckId)
            (flashcard_cards db) in
        (Fulfilled (mkReply (Some (order_by_order_index rows)) None), db)
    | InsertCard deckId front back order_index => fun db =>
        if bool_decide (deckId ∈ owned_decks db) then
          let row :=
            FlashcardCard.mk (gen_random_uuid db (flashcard_cards db)) deckId front back
              order_index (now db) (now db) in
          (Fulfilled (Row row), with_rows db (flashcard_cards db ++ [row]))
        else
          (Fulfilled (NoRow (store_error (errors_are_Error db) insufficient_privilege
             "new row violates row-level security policy")), db)
    | DeleteCard cardId => fun db =>
        (Fulfilled (mkReply None None),
         with_rows db
           (filter (fun row => ¬ (visible db row ∧ FlashcardCard.id row = cardId))
              (flashcard_cards db)))
    | UpdateCard cardId front back updated_at => fun db =>
        match filter (fun row => visible db row ∧ FlashcardCard.id row = cardId)
                (flashcard_cards db) with
        | [row] =>
            (Fulfilled (Row (set_sides front back updated_at row)),
             with_rows db
               (map (fun r =>
                       if bool_decide (visible db r ∧ FlashcardCard.id r = cardId)
                       then set_sides front back updated_at r else r)
                  (flashcard_cards db)))
        | _ =>
            (Fulfilled (NoRow (store_error (errors_are_Error db) "PGRST116"
               "JSON object requested, multiple (or no) rows returned")), db)
        end
    end.

(** The rows that [DELETE ... WHERE id = cardId] removes. *)
Definition deleted_rows (db : t) (cardId : string) : list FlashcardCard.t :=
  filter (fun row => visible db row ∧ FlashcardCard.id row = cardId) (flashcard_cards db).

End CardStore.

(** ** [useWordPairs]: paging *)

Module WordPairsPaging.
Import Js Async Supabase WordPairs.

(** The value of a division of two integers followed by [Math.ceil]: an
    integer, or what a division by zero gives.  (The integers at hand are
    row counts and page sizes, far below 2^53, where the quotient of the
    doubles has the ceiling of the exact quotient.) *)
Inductive Num : Type :=
| Finite (z : Z)
| Infinity
| NegInfinity
| NaN.

(** [Math.ceil(a / b)] *)
Definition ceil_div (a b : Z) : Num :=
  if (b =? 0)%Z then
    if (0 <? a)%Z then Infinity else if (a <? 0)%Z then NegInfinity else NaN
  else Finite (- ((- a) / b))%Z.

(** [x < y] for an integer [x] *)
Definition less (x : Z) (y : Num) : bool :=
  match y with
  | Finite z => (x <? z)%Z
  | Infinity => true
  | NegInfinity | NaN => false
  end.

Definition maxPage (st : State) : Num :=
  ceil_div (total (pagination st)) (p_limit (pagination st)).

Definition hasNextPage (st : State) : bool := less (p_page (pagination st)) (maxPage st).

Definition hasPrevPage (st : State) : bool := (1 <? p_page (pagination st))%Z.

Section Service.
Context `{!Engine}.
Variable AI_SERVICE_URL : string.

(** [nextPage] and [prevPage] start a fetch and do not wait for it; what
    they return here is that fetch. *)
Definition nextPage (st : State) : Async httpE State :=
  if less (p_page (pagination st)) (maxPage st)
  then fetchWordPairs AI_SERVICE_URL st
         (Some (p_page (pagination st) + 1)%Z) (Some (p_limit (pagination st)))
  else Ret st.

Definition prevPage (st : State) : Async httpE State :=
  if (1 <? p_page (pagination st))%Z
  then fetchWordPairs AI_SERVICE_URL st
         (Some (p_page (pagination st) - 1)%Z) (Some (p_limit (pagination st)))
  else Ret st.

End Service.

End WordPairsPaging.

(** ** Successive calls of [recordProgress] *)

Module Study.
Import Js Async Supabase Flashcards.

(** One answer after the other for the same card, each call made from the
    render that follows the previous one, with the clock of its moment.
    The result tells whether every call returned [true]. *)
Fixpoint recordProgress_each (user : option User) (st : State)
  (answers : list (Clock * bool)) (cardId deckId : string)
  : Async progressE (State * bool) :=
  match answers with
  | [] => Ret (st, true)
  | (now, correct) :: answers' =>
      bind (recordProgress user st now cardId deckId correct) (fun r =>
        bind (recordProgress_each user (fst r) answers' cardId deckId) (fun r' =>
          Ret (fst r', snd r && snd r')))
  end.

End Study.

(** ** The pages that call the hooks *)

Module Pages.
Import Js Async Supabase.

(** A notification of [sonner]. *)
Inductive Toast : Type :=
| toast_success (msg : string)
| toast_error (msg : string).

(** The double quote of the template strings. *)
Definition dq : string := String "034"%char EmptyString.

(** *** [RandomPhrasePage] *)

Section WithEngine.
Context `{!Engine}.

Definition handleToggleFavorite (user : option User) (st : FavoriteWords.State)
  (word : string) : Async FavoriteWords.favoritesE (FavoriteWords.State * list Toast) :=
  if FavoriteWords.isFavorite st word then
    bind (FavoriteWords.removeFavorite user st word) (fun r =>
      Ret (fst r,
           if snd r
           then [toast_success ("Removed " +:+ dq +:+ word +:+ dq +:+ " from favorites")]
           else []))
  else
    bind (FavoriteWords.addFavorite user st word) (fun r =>
      Ret (fst r,
           if snd r
           then [toast_success ("Added " +:+ dq +:+ word +:+ dq +:+ " to favorites")]
           else [])).

(** Successive clicks on hearts, each from the render after the previous. *)
Fixpoint handleToggleFavorite_each (user : option User) (st : FavoriteWords.State)
  (clicked : list string) : Async FavoriteWords.favoritesE FavoriteWords.State :=
  match clicked with
  | [] => Ret st
  | word :: clicked' =>
      bind (handleToggleFavorite user st word) (fun r =>
        handleToggleFavorite_each user (fst r) clicked')
  end.

End WithEngine.

(** A word of the phrase generator. *)
Record Word : Type := mkWord { word : string }.

(** The state cells of the page that the two save handlers touch. *)
Record PhrasePage : Type := mkPhrasePage {
  selectedDeckId : option string;
  savingCard : bool;
  savingWords : bool
}.

(** What the setters called by one [addCard] leave in the live state cells
    of the flashcards hook: [setCards] alone when it succeeded, [setError]
    alone when it failed. *)
Definition addCard_writes (result : Flashcards.State * option Flashcards.FlashcardCard.t)
  (live : Flashcards.State) : Flashcards.State :=
  match snd result with
  | Some _ => Flashcards.setCards (Flashcards.cards (fst result)) live
  | None => Flashcards.setError (Flashcards.error (fst result)) live
  end.

(** The loop of [handleSaveWordsAsCards].  Every turn calls the [addCard]
    of the render in which the handler was created, so every call sees the
    state cells [st] of that render; [live] are the cells as the setters
    leave them. *)
Fixpoint saveWords_loop (user : option User) (st live : Flashcards.State)
  (deckId : string) (words : list Word) (successCount : nat)
  : Async Flashcards.cardsE (Flashcards.State * nat) :=
  match words with
  | [] => Ret (live, successCount)
  | w :: words' =>
      bind (Flashcards.addCard user st deckId (word w) "") (fun r =>
        saveWords_loop user st (addCard_writes r live) deckId words'
          (match snd r with Some _ => S successCount | None => successCount end))
  end.

(** [!selectedDeckId]: no deck, or the empty id. *)
Definition no_deck (selected : option string) : bool :=
  match selected with
  | Some d => bool_decide (d = "")
  | None => true
  end.

Definition handleSaveWordsAsCards (user : option User) (st : Flashcards.State)
  (page : PhrasePage) (words : list Word)
  : Async Flashcards.cardsE (Flashcards.State * PhrasePage * list Toast) :=
  match selectedDeckId page with
  | Some deckId =>
      if no_deck (selectedDeckId page) || bool_decide (length words = 0)
      then Ret (st, page, [toast_error "Please select a deck and have words displayed"])
      else
        bind (saveWords_loop user st st deckId words 0) (fun r =>
          let n := length words in
          if bool_decide (snd r = n)
          then Ret (fst r, mkPhrasePage None (savingCard page) false,
                    [toast_success ("All " +:+ pretty n +:+ " words added to deck!")])
          else Ret (fst r, mkPhrasePage (selectedDeckId page) (savingCard page) false,
                    [toast_success ("Added " +:+ pretty (snd r) +:+ " of " +:+ pretty n
                                    +:+ " words")]))
  | None => Ret (st, page, [toast_error "Please select a deck and have words displayed"])
  end.

(** *** [FlashcardsPage]: moving through the cards *)

(** [handleNextCard], with [cards.length] and [currentCardIndex]. *)
Definition handleNextCard (cards_length currentCardIndex : Z) : Z :=
  if (currentCardIndex <? cards_length - 1)%Z then (currentCardIndex + 1)%Z
  else currentCardIndex.

Definition handlePreviousCard (currentCardIndex : Z) : Z :=
  if (0 <? currentCardIndex)%Z then (currentCardIndex - 1)%Z else currentCardIndex.

(** [handleKeyDown]: both tests are made on the same render. *)
Definition handleKeyDown (cards_length currentCardIndex : Z) (key : string) : Z :=
  if bool_decide (key = "ArrowRight") then handleNextCard cards_length currentCardIndex
  else if bool_decide (key = "ArrowLeft") then handlePreviousCard currentCardIndex
  else currentCardIndex.

(** What the user can do to move: the two buttons, a key, or the dot of a
    card, which exists for the indices of [cards] only. *)
Inductive Move : Type :=
| ClickNext
| ClickPrevious
| KeyDown (key : string)
| ClickDot (index : nat).

Definition move (cards_length : nat) (currentCardIndex : Z) (m : Move) : Z :=
  match m with
  | ClickNext => handleNextCard (Z.of_nat cards_length) currentCardIndex
  | ClickPrevious => handlePreviousCard currentCardIndex
  | KeyDown key => handleKeyDown (Z.of_nat cards_length) currentCardIndex key
  | ClickDot index =>
      if bool_decide (index < cards_length) then Z.of_nat index else currentCardIndex
  end.

(** *** [WordPairsPage]: the form *)

Record FormData : Type := mkFormData {
  f_word1 : string;
  f_word2 : string;
  f_pairType : string;
  f_description : string
}.

Record EditingPair : Type := mkEditingPair {
  e_id : string;
  e_data : FormData
}.

Record PairsPage : Type := mkPairsPage {
  showForm : bool;
  editingPair : option EditingPair;
  formData : FormData
}.

Definition emptyForm : FormData := mkFormData "" "" "custom" "".

(** [resetForm] *)
Definition resetForm (page : PairsPage) : PairsPage :=
  mkPairsPage (showForm page) None emptyForm.

Section Service.
Context `{!Engine}.
Variable AI_SERVICE_URL : string.

Definition handleSubmit (st : WordPairs.State) (page : PairsPage)
  : Async WordPairs.httpE (WordPairs.State * PairsPage * list Toast) :=
  let form := formData page in
  if bool_decide (trim (f_word1 form) = "") || bool_decide (trim (f_word2 form) = "")
  then Ret (st, page, [toast_error "Both words are required"])
  else
    let submitted (st' : WordPairs.State) (o : Outcome WordPairs.WordPair.t) (done : string) :=
      match o with
      | Fulfilled _ =>
          (st', resetForm (mkPairsPage false (editingPair page) (formData page)),
           [toast_success done])
      | Rejected err => (st', page, [toast_error (message_or "An error occurred" err)])
      end in
    match editingPair page with
    | Some editing =>
        bind (WordPairs.updateWordPair AI_SERVICE_URL st (e_id editing)
                (WordPairs.mkUpdates (Some (f_word1 form)) (Some (f_word2 form))
                   (Some (f_pairType form)) (Some (Some (f_description form)))))
          (fun r => Ret (submitted (fst r) (snd r) "Word pair updated successfully"))
    | None =>
        bind (WordPairs.createWordPair AI_SERVICE_URL st (f_word1 form) (f_word2 form)
                (Some (f_pairType form)) (Some (f_description form)))
          (fun r => Ret (submitted (fst r) (snd r) "Word pair created successfully"))
    end.

End Service.

End Pages.

(** ** Sample data *)

Module Examples.
Import Js Async Supabase.

Definition owner : User := mkUser "owner-1".

Definition session : Session := mkSession "token-1" "owner-1".

(** The favorites table with a signed-in owner and no rows. *)
Definition no_favorites : FavoriteWords.Store :=
  FavoriteWords.mkStore (Some "owner-1") [] false.

Definition hola : Flashcards.FlashcardCard.t :=
  Flashcards.FlashcardCard.mk "card-1" "deck-1" "hola" "hello" 0
    "2026-02-05T14:38:59Z" "2026-02-05T14:38:59Z".

Definition spanish : Flashcards.FlashcardDeck.t :=
  Flashcards.FlashcardDeck.mk "deck-1" "Spanish 101" (Some "A")
    "2026-02-05T14:38:59Z" "2026-02-05T14:38:59Z" (Some 1%Z).

(** The hook showing one deck and its one card. *)
Definition studying : Flashcards.State :=
  Flashcards.mkState [spanish] [hola] ∅ false None.

(** The cards table still holding that card, seen through a session that
    has lapsed: no deck passes the policies any more. *)
Definition lapsed_session : CardStore.t :=
  CardStore.mk [] [hola] (fun _ => "card-2") "2026-02-06T09:00:00Z" false.

(** The cards table seen by the owner of deck-1. *)
Definition signed_in : CardStore.t :=
  CardStore.mk ["deck-1"] [hola] (fun _ => "card-2") "2026-02-06T09:00:00Z" false.

(** The same table, handing out the ids card-2, card-3, ... in turn. *)
Definition numbering : CardStore.t :=
  CardStore.mk ["deck-1"] [hola] (fun rows => "card-" +:+ pretty (S (length rows)))
    "2026-02-06T09:00:00Z" false.

(** The progress table with a signed-in owner and no rows. *)
Definition no_progress : ProgressStore.t :=
  ProgressStore.mk (Some "owner-1") [] (fun _ => "progress-1") false.

Definition morning : Flashcards.Clock := fun _ => "2026-02-06T09:00:00Z".
Definition evening : Flashcards.Clock := fun _ => "2026-02-06T21:00:00Z".

(** A remote side on which every request is rejected. *)
Definition offline {E : Type -> Type} : Remote E unit :=
  fun X _ w => (Rejected (new_Error "Failed to fetch"), w).

(** A decks table that accepts every insert and names the new row deck-2. *)
Definition accepting_decks : Remote Flashcards.decksE unit :=
  fun X e =>
    match e in Flashcards.decksE X return unit -> Outcome X * unit with
    | Flashcards.SelectDecks _ => fun w => (Fulfilled (mkReply (Some []) None), w)
    | Flashcards.InsertDeck _ name description => fun w =>
        (Fulfilled (Row (Flashcards.DeckRow.mk "deck-2" name description
                           "2026-02-06T09:00:00Z" "2026-02-06T09:00:00Z" None)), w)
    | Flashcards.GetSession => fun w => (Fulfilled (mkReply (Some (Some session)) None), w)
    | Flashcards.DeleteDeck _ => fun w => (Fulfilled (mkReply (Some []) None), w)
    end.

Definition big_small : WordPairs.WordPair.t :=
  WordPairs.WordPair.mk "pair-1" "owner-1" "big" "small" "antonym" None
    "2026-02-05T14:38:59Z" "2026-02-05T14:38:59Z".

(** A service behind a gateway that answers every request with an HTML
    error page. *)
Definition bad_gateway : Remote WordPairs.httpE unit :=
  fun X e =>
    match e in WordPairs.httpE X return unit -> Outcome X * unit with
    | WordPairs.GetSession => fun w => (Fulfilled (Some session), w)
    | WordPairs.Fetch _ _ => fun w => (Fulfilled (WordPairs.NotOk "Bad Gateway" WordPairs.NotJson), w)
    end.

(** A service that holds the one pair [big_small] and accepts everything. *)
Definition accepting : Remote WordPairs.httpE unit :=
  fun X e =>
    match e in WordPairs.httpE X return unit -> Outcome X * unit with
    | WordPairs.GetSession => fun w => (Fulfilled (Some session), w)
    | WordPairs.Fetch shape _ => fun w =>
        (Fulfilled
           match shape in WordPairs.Shape T return WordPairs.Response T with
           | WordPairs.AsWordPairsResponse =>
               WordPairs.Ok (WordPairs.mkWordPairsResponse [big_small] 1 1 20)
           | WordPairs.AsWordPair => WordPairs.Ok big_small
           | WordPairs.AsVoid => WordPairs.Ok tt
           end, w)
    end.

(** A service that reports a count of -3 with its one pair. *)
Definition miscounting : Remote WordPairs.httpE unit :=
  fun X e =>
    match e in WordPairs.httpE X return unit -> Outcome X * unit with
    | WordPairs.GetSession => fun w => (Fulfilled (Some session), w)
    | WordPairs.Fetch shape _ => fun w =>
        (Fulfilled
           match shape in WordPairs.Shape T return WordPairs.Response T with
           | WordPairs.AsWordPairsResponse =>
               WordPairs.Ok (WordPairs.mkWordPairsResponse [big_small] (-3) 1 20)
           | WordPairs.AsWordPair => WordPairs.Ok big_small
           | WordPairs.AsVoid => WordPairs.Ok tt
           end, w)
    end.

(** The favorites table with a signed-in owner, one word of their own and
    one of somebody else. *)
Definition two_owners : FavoriteWords.Store :=
  FavoriteWords.mkStore (Some "owner-1") [("owner-1", "apple"); ("owner-2", "pear")] false.

Definition apple_only : FavoriteWords.State :=
  FavoriteWords.mkState ["apple"] false None.

(** The service as seen with nobody signed in. *)
Definition signed_out : Remote WordPairs.httpE unit :=
  fun X e =>
    match e in WordPairs.httpE X return unit -> Outcome X * unit with
    | WordPairs.GetSession => fun w => (Fulfilled None, w)
    | WordPairs.Fetch _ _ => fun w => (Rejected (new_Error "Failed to fetch"), w)
    end.

(** The hook showing the second page of 45 pairs, 20 to a page. *)
Definition second_page : WordPairs.State :=
  WordPairs.mkState [big_small] false None (WordPairs.mkPagination 2 20 45).

(** The progress table already holding a row of the owner for card-1. *)
Definition known_progress : ProgressStore.t :=
  ProgressStore.mk (Some "owner-1")
    [ProgressStore.mkRow "progress-1" "owner-1" "card-1" "deck-1" 3 1
       (Some "2026-02-05T20:00:00Z")]
    (fun _ => "progress-2") false.

End Examples.

(** ** Vocabulary of the statements *)

Module Spec.
Import Js Async.

(** How often [x] occurs in the mirror [l]. *)
Definition occurrences `{EqDecision A} (x : A) (l : list A) : nat :=
  length (filter (fun y => y = x) l).

(** [x] sits at index [i] of [l] and nowhere else. *)
Definition only_at {A} (i : nat) (x : A) (l : list A) : Prop :=
  l !! i = Some x ∧ ∀ j, l !! j = Some x → j = i.

(** The engine does on ASCII text what ECMAScript lays down there: [trim]
    removes the ASCII white space at both ends, [toLowerCase] moves A..Z to
    a..z. *)
Definition ascii_conforming `{!Engine} : Prop :=
  ∀ s : string, AsciiText.is_ascii_text s = true →
    trim s = AsciiText.trim s ∧ toLowerCase s = AsciiText.toLowerCase s.

(** The async function issues no request at all. *)
Definition silent {E A} (m : Async E A) : Prop :=
  ∀ W (remote : Remote E W) (w : W), calls (run remote m w) = [].

(** What the remote side answers to a request to [endpoint] of the service
    at [url]: its answer to the session lookup and, when that finds a
    session, the service's answer to the request that carries the token of
    that session. *)
Inductive Answer (T : Type) : Type :=
| NoSession
| SessionFailed (err : Js.Thrown)
| Answered (session : Supabase.Session) (reply : Outcome (WordPairs.Response T)).
Arguments NoSession {T}.
Arguments SessionFailed {T} err.
Arguments Answered {T} session reply.

Definition answer {W T} (remote : Remote WordPairs.httpE W) (w0 : W) (url : string)
  (shape : WordPairs.Shape T) (method endpoint : string) (body : option WordPairs.JsonObject)
  : Answer T :=
  match fst (remote _ WordPairs.GetSession w0) with
  | Fulfilled None => NoSession
  | Rejected err => SessionFailed err
  | Fulfilled (Some session) =>
      Answered session
        (fst (remote _
                (WordPairs.Fetch shape
                   (WordPairs.mkRequest (url +:+ endpoint) method
                      [("Content-Type", "application/json");
                       ("Authorization", "Bearer " +:+ Supabase.access_token session)]
                      body))
                (snd (remote _ WordPairs.GetSession w0))))
  end.

(** The cards come in ascending [order_index]. *)
Definition by_order_index (l : list Flashcards.FlashcardCard.t) : Prop :=
  StronglySorted
    (fun c d => (Flashcards.FlashcardCard.order_index c
                 ≤ Flashcards.FlashcardCard.order_index d)%Z) l.

(** How many of the answers were [b]. *)
Definition tally (b : bool) (answers : list (Flashcards.Clock * bool)) : Z :=
  Z.of_nat (length (filter (fun a => snd a = b) answers)).

(** The favorites mirror holds exactly the words that the table holds for
    the owner. *)
Definition agrees (u : Supabase.User) (st : FavoriteWords.State) (db : FavoriteWords.Store)
  : Prop :=
  ∀ x : string,
    x ∈ FavoriteWords.favorites st ↔
    (Supabase.user_id u, x) ∈ FavoriteWords.favorite_words db.

End Spec.

(** * Properties *)

Import Js Async Supabase Spec.

(** The sample runs below are made with the ASCII engine; the theorems hold
    for every engine. *)
#[local] Existing Instance AsciiText.engine | 100.

(** ** Running async functions *)

Lemma run_bind {E W A B} (remote : Remote E W) (m : Async E A) (f : A -> Async E B) (w : W) :
  run remote (bind m f) w =
  let r1 := run remote m w in
  let r2 := run remote (f (returned r1)) (world r1) in
  mkRun (returned r2) (world r2) (calls r1 ++ calls r2).
Proof.
  revert w. induction m as [a | X e k IH]; intros w; simpl.
  - by destruct (run remote (f a) w).
  - destruct (remote X e w) as [o w1]. rewrite IH. reflexivity.
Qed.

(** ** Insertion-ordered sets *)

Example new_Set_keeps_first_occurrences :
  new_Set ["b"; "a"; "b"; "c"; "a"] = ["b"; "a"; "c"].
Proof. reflexivity. Qed.

Example trim_keeps_inner_space : AsciiText.trim "  a b   " = "a b".
Proof. reflexivity. Qed.

Lemma elem_of_fold_Set_add (l acc : list string) (x : string) :
  x ∈ fold_left Set_add l acc ↔ x ∈ acc ∨ x ∈ l.
Proof.
  revert acc. induction l as [| y l IH]; intros acc; simpl.
  - rewrite elem_of_nil. tauto.
  - rewrite IH, elem_of_cons. unfold Set_add. case_bool_decide as Hy.
    + split; [tauto |]. intros [? | [-> | ?]]; tauto.
    + rewrite elem_of_app, list_elem_of_singleton. tauto.
Qed.

Lemma NoDup_fold_Set_add (l acc : list string) :
  NoDup acc → NoDup (fold_left Set_add l acc).
Proof.
  revert acc. induction l as [| y l IH]; intros acc Hacc; simpl; [done |].
  apply IH. unfold Set_add. case_bool_decide as Hy; [done |].
  apply NoDup_app. split_and!; [done | | apply NoDup_singleton].
  intros x Hx ->%list_elem_of_singleton. done.
Qed.

Lemma fold_Set_add_fresh (l acc : list string) :
  NoDup (acc ++ l) → fold_left Set_add l acc = acc ++ l.
Proof.
  revert acc. induction l as [| y l IH]; intros acc Hnd; simpl.
  - by rewrite app_nil_r.
  - assert (y ∉ acc) as Hy.
    { apply NoDup_app in Hnd as (_ & Hdisj & _). intros Hin.
      apply (Hdisj y Hin). left. }
    unfold Set_add. rewrite bool_decide_eq_false_2 by done.
    rewrite IH; rewrite <- app_assoc; done.
Qed.

Lemma elem_of_new_Set (l : list string) (x : string) : x ∈ new_Set l ↔ x ∈ l.
Proof. unfold new_Set. rewrite elem_of_fold_Set_add, elem_of_nil. tauto. Qed.

Lemma NoDup_new_Set (l : list string) : NoDup (new_Set l).
Proof. apply NoDup_fold_Set_add, NoDup_nil_2. Qed.

Lemma new_Set_NoDup_id (l : list string) : NoDup l → new_Set l = l.
Proof. intros Hnd. unfold new_Set. by rewrite fold_Set_add_fresh. Qed.

Lemma new_Set_snoc (l : list string) (x : string) :
  new_Set (l ++ [x]) = Set_add (new_Set l) x.
Proof. unfold new_Set. by rewrite fold_left_app. Qed.

Lemma new_Set_snoc_known (l : list string) (x : string) :
  NoDup l → x ∈ l → new_Set (l ++ [x]) = l.
Proof.
  intros Hnd Hx. rewrite new_Set_snoc, new_Set_NoDup_id by done.
  unfold Set_add. by rewrite bool_decide_eq_true_2.
Qed.

Lemma filter_none {A} (P : A → Prop) `{∀ x, Decision (P x)} (l : list A) :
  (∀ z, z ∈ l → ¬ P z) → filter P l = [].
Proof.
  induction l as [| y l IH]; intros Hl; [done |].
  rewrite filter_cons_False by (apply Hl; left).
  apply IH. intros z Hz. apply Hl. by right.
Qed.

Lemma filter_all {A} (P : A → Prop) `{∀ x, Decision (P x)} (l : list A) :
  (∀ z, z ∈ l → P z) → filter P l = l.
Proof.
  induction l as [| y l IH]; intros Hl; [done |].
  rewrite filter_cons_True by (apply Hl; left).
  f_equal. apply IH. intros z Hz. apply Hl. by right.
Qed.

Lemma occurrences_NoDup `{EqDecision A} (x : A) (l : list A) :
  NoDup l → x ∈ l → occurrences x l = 1.
Proof.
  unfold occurrences. induction 1 as [| y l Hy Hnd IH]; intros Hx.
  - by apply elem_of_nil in Hx.
  - rewrite filter_cons. apply elem_of_cons in Hx as [-> | Hx].
    + rewrite decide_True by done. simpl. f_equal.
      rewrite filter_none; [done |]. intros z Hz ->. done.
    + rewrite decide_False by (intros ->; done). by apply IH.
Qed.

Lemma NoDup_singleton_eq (l : list string) (a : string) :
  NoDup l → (∀ x, x ∈ l ↔ x = a) → l = [a].
Proof.
  intros Hnd Hl. destruct l as [| x l].
  - exfalso. eapply elem_of_nil. by apply (Hl a).
  - assert (x = a) as -> by (apply Hl; left).
    destruct l as [| y l]; [done |]. exfalso.
    assert (y = a) as -> by (apply Hl; right; left).
    apply NoDup_cons in Hnd as [Hnd _]. apply Hnd. left.
Qed.

(** ** Favorite words *)

Section FavoriteWordsProps.
Import FavoriteWords.

Lemma is_ascii_text_trimStart (s : string) :
  AsciiText.is_ascii_text s = true → AsciiText.is_ascii_text (AsciiText.trimStart s) = true.
Proof.
  induction s as [| c s IH]; [done |]. intros Hs.
  cbn [AsciiText.trimStart]. destruct (AsciiText.is_white_space c); [| done].
  apply IH. cbn [AsciiText.is_ascii_text] in Hs. by apply andb_prop in Hs as [_ ?].
Qed.

Lemma is_ascii_text_rev_app (s acc : string) :
  AsciiText.is_ascii_text (String.rev_app s acc)
  = AsciiText.is_ascii_text s && AsciiText.is_ascii_text acc.
Proof.
  revert acc. induction s as [| c s IH]; intros acc; [done |].
  cbn [String.rev_app AsciiText.is_ascii_text]. rewrite IH.
  cbn [AsciiText.is_ascii_text].
  by destruct (nat_of_ascii c <? 128)%nat, (AsciiText.is_ascii_text s),
    (AsciiText.is_ascii_text acc).
Qed.

Lemma is_ascii_text_trim (s : string) :
  AsciiText.is_ascii_text s = true → AsciiText.is_ascii_text (AsciiText.trim s) = true.
Proof.
  intros Hs. unfold AsciiText.trim, AsciiText.trimEnd, String.rev.
  rewrite is_ascii_text_rev_app, andb_true_r.
  apply is_ascii_text_trimStart.
  rewrite is_ascii_text_rev_app, andb_true_r.
  by apply is_ascii_text_trimStart.
Qed.

(** On ASCII text the normal form is the one of [AsciiText], whatever the
    engine does elsewhere. *)
Lemma normalize_ascii `{!Engine} (w : string) :
  ascii_conforming → AsciiText.is_ascii_text w = true →
  normalize w = AsciiText.toLowerCase (AsciiText.trim w).
Proof.
  intros Hconf Hw. unfold normalize.
  destruct (Hconf w Hw) as [-> _].
  by destruct (Hconf (AsciiText.trim w) (is_ascii_text_trim w Hw)) as [_ ->].
Qed.

Lemma normalize_examples `{!Engine} :
  ascii_conforming →
  normalize "Apple" = "apple" ∧ normalize "apple" = "apple" ∧ normalize " apple " = "apple".
Proof. intros Hconf. repeat split; by rewrite normalize_ascii. Qed.

(** One [addFavorite] against the table of the migration, by a signed-in
    owner: the insert goes through or hits the unique constraint, and both
    ways the call returns [true] with the word in the mirror. *)
Lemma addFavorite_store `{!Engine} (db : Store) (u : User) (st : State) (w : string) :
  auth_uid db = Some (user_id u) →
  let r := run store (addFavorite (Some u) st w) db in
  snd (returned r) = true ∧
  auth_uid (world r) = auth_uid db ∧
  (user_id u, normalize w) ∈ favorite_words (world r) ∧
  NoDup (favorites (fst (returned r))) ∧
  (∀ x, x ∈ favorites (fst (returned r)) ↔ x = normalize w ∨ x ∈ favorites st) ∧
  ((user_id u, normalize w) ∈ favorite_words db →
   favorites (fst (returned r)) = new_Set (favorites st ++ [normalize w])).
Proof.
  intros Hauth. simpl. rewrite bool_decide_eq_true_2 by done.
  case_bool_decide as Hin; simpl.
  - split_and!; try done.
    + apply NoDup_new_Set.
    + intros x. rewrite elem_of_new_Set, elem_of_app, list_elem_of_singleton. tauto.
  - split_and!; try done.
    + left.
    + apply NoDup_new_Set.
    + intros x. rewrite elem_of_new_Set, elem_of_cons. tauto.
Qed.

Lemma addFavorite_each_store `{!Engine} (nw : string) (u : User) (ws : list string) :
  ∀ (w : string) (db : Store) (st : State),
  auth_uid db = Some (user_id u) →
  (∀ x, x ∈ w :: ws → normalize x = nw) →
  let final := returned (run store (addFavorite_each (Some u) st (w :: ws)) db) in
  NoDup (favorites final) ∧ ∀ x, x ∈ favorites final ↔ x = nw ∨ x ∈ favorites st.
Proof.
  induction ws as [| w2 ws IH]; intros w db st Hauth Hnw.
  - cbn [addFavorite_each]. rewrite run_bind. cbn zeta. cbn [run returned].
    destruct (addFavorite_store db u st w Hauth) as (_ & _ & _ & Hnd & Hel & _).
    rewrite (Hnw w) in Hel by left. done.
  - change (addFavorite_each (Some u) st (w :: w2 :: ws))
      with (bind (addFavorite (Some u) st w)
              (fun r => addFavorite_each (Some u) (fst r) (w2 :: ws))).
    rewrite run_bind. cbn zeta. cbn [returned].
    destruct (addFavorite_store db u st w Hauth) as (_ & Hauth' & _ & _ & Hel & _).
    rewrite (Hnw w) in Hel by left.
    set (r1 := run store (addFavorite (Some u) st w) db) in *.
    destruct (IH w2 (world r1) (fst (returned r1))) as [Hnd Hel2].
    { by rewrite Hauth'. }
    { intros x Hx. apply Hnw. by right. }
    split; [done |]. intros x. rewrite Hel2, Hel. tauto.
Qed.

(** One [removeFavorite] against the table, by a signed-in owner: the call
    returns [true], the owner's row of the normalized word is gone from the
    table and the word from the mirror, and nothing else has moved. *)
Lemma removeFavorite_store `{!Engine} (db : Store) (u : User) (st : State) (w : string) :
  auth_uid db = Some (user_id u) →
  let r := run store (removeFavorite (Some u) st w) db in
  snd (returned r) = true ∧
  ((user_id u, normalize w) ∉ favorite_words (world r)) ∧
  (∀ row, row ≠ (user_id u, normalize w) →
          (row ∈ favorite_words (world r) ↔ row ∈ favorite_words db)) ∧
  favorites (fst (returned r)) = filter (fun x => x ≠ normalize w) (favorites st).
Proof.
  intros Hauth. simpl. unfold visible. split_and!; try done.
  - rewrite list_elem_of_filter. simpl. intros [Hrow _]. apply Hrow. done.
  - intros row Hrow. rewrite list_elem_of_filter. tauto.
Qed.

(** C3. The favorite-word operations compare and store the word trimmed and
    then lower-cased, with the engine's own [trim] and [toLowerCase] (on
    ASCII text: the ASCII white space removed at both ends, A..Z moved to
    a..z).  [addFavorite] and [removeFavorite] send the word in that form
    to the store and [isFavorite] looks that form up, so two words with the
    same normal form are the same argument to all three.  Against the
    table of the migration and for one signed-in owner: after [addFavorite]
    the normal form is in the table and exactly once in the mirror, and the
    word is a favorite; after [removeFavorite] it is in neither, the word
    is no favorite and the other entries are where they were; adding any
    words of one normal form, one after the other, leaves that form exactly
    once in the mirror; so adding "Apple", "apple" and " apple " in any
    order leaves "apple" exactly once (and alone in a mirror that was
    empty); and adding the same word again leaves the mirror as it is. *)
Theorem favorite_words_normalized `{!Engine}
  (db : Store) (u : User) (st : State) (ws : list string) (w w' : string) :
  ascii_conforming →
  auth_uid db = Some (user_id u) →
  ws ≡ₚ ["Apple"; "apple"; " apple "] →
  normalize w' = normalize w →
  (AsciiText.is_ascii_text w = true →
   normalize w = AsciiText.toLowerCase (AsciiText.trim w)) ∧
  (∀ W (remote : Remote favoritesE W) (w0 : W),
     calls (run remote (addFavorite (Some u) st w) w0)
     = [call (InsertFavorite (user_id u) (toLowerCase (trim w)))] ∧
     calls (run remote (removeFavorite (Some u) st w) w0)
     = [call (DeleteFavorite (user_id u) (toLowerCase (trim w)))]) ∧
  isFavorite st w = bool_decide (toLowerCase (trim w) ∈ favorites st) ∧
  addFavorite (Some u) st w' = addFavorite (Some u) st w ∧
  removeFavorite (Some u) st w' = removeFavorite (Some u) st w ∧
  isFavorite st w' = isFavorite st w ∧
  let r := run store (addFavorite (Some u) st w) db in
  snd (returned r) = true ∧
  (user_id u, normalize w) ∈ favorite_words (world r) ∧
  isFavorite (fst (returned r)) w' = true ∧
  occurrences (normalize w) (favorites (fst (returned r))) = 1 ∧
  (let rr := run store (removeFavorite (Some u) st w) db in
   snd (returned rr) = true ∧
   ((user_id u, normalize w) ∉ favorite_words (world rr)) ∧
   isFavorite (fst (returned rr)) w' = false ∧
   occurrences (normalize w) (favorites (fst (returned rr))) = 0 ∧
   favorites (fst (returned rr)) = filter (fun x => x ≠ normalize w) (favorites st)) ∧
  (let back := run store (removeFavorite (Some u) (fst (returned r)) w') (world r) in
   snd (returned back) = true ∧
   ((user_id u, normalize w) ∉ favorite_words (world back)) ∧
   isFavorite (fst (returned back)) w = false ∧
   ∀ x, x ≠ normalize w → (x ∈ favorites (fst (returned back)) ↔ x ∈ favorites st)) ∧
  (∀ (nw : string) (vs : list string),
     vs ≠ [] → (∀ x, x ∈ vs → normalize x = nw) →
     let final := returned (run store (addFavorite_each (Some u) st vs) db) in
     occurrences nw (favorites final) = 1 ∧
     ∀ x, x ∈ favorites final ↔ x = nw ∨ x ∈ favorites st) ∧
  let final := returned (run store (addFavorite_each (Some u) st ws) db) in
  occurrences "apple" (favorites final) = 1 ∧
  (favorites st = [] → favorites final = ["apple"]) ∧
  let r2 := run store (addFavorite (Some u) (fst (returned r)) w') (world r) in
  snd (returned r2) = true ∧
  favorites (fst (returned r2)) = favorites (fst (returned r)).
Proof.
  intros Hconf Hauth Hperm Hnorm.
  assert (∀ x (l : list string), occurrences x (filter (fun y => y ≠ x) l) = 0) as Hnone.
  { intros x l. unfold occurrences. rewrite filter_none; [done |].
    intros z Hz%list_elem_of_filter. tauto. }
  split; [by apply normalize_ascii |].
  split.
  { intros W remote w0. simpl. fold (normalize w). split.
    - by destruct (remote _ (InsertFavorite (user_id u) (normalize w)) w0).
    - by destruct (remote _ (DeleteFavorite (user_id u) (normalize w)) w0). }
  split; [done |].
  split; [unfold addFavorite; by rewrite Hnorm |].
  split; [unfold removeFavorite; by rewrite Hnorm |].
  split; [unfold isFavorite; by rewrite Hnorm |].
  intros r.
  destruct (addFavorite_store db u st w Hauth) as (Hok & Hauth1 & Hrow & Hnd & Hel & _).
  fold r in Hok, Hauth1, Hrow, Hnd, Hel.
  assert (normalize w ∈ favorites (fst (returned r))) as Hin by (apply Hel; by left).
  assert (auth_uid (world r) = Some (user_id u)) as Hauth2 by congruence.
  split; [done |]. split; [done |]. split; [| split].
  { unfold isFavorite, includes. rewrite Hnorm. by apply bool_decide_eq_true_2. }
  { by apply occurrences_NoDup. }
  split.
  { intros rr.
    destruct (removeFavorite_store db u st w Hauth) as (Hok' & Hrow' & _ & Hmirror).
    fold rr in Hok', Hrow', Hmirror.
    split_and!; try done.
    - unfold isFavorite, includes. rewrite Hnorm, Hmirror.
      apply bool_decide_eq_false_2. rewrite list_elem_of_filter. tauto.
    - rewrite Hmirror. apply Hnone. }
  split.
  { intros back.
    destruct (removeFavorite_store (world r) u (fst (returned r)) w' Hauth2)
      as (Hok' & Hrow' & _ & Hmirror).
    fold back in Hok', Hrow', Hmirror. rewrite Hnorm in Hrow', Hmirror.
    split_and!; try done.
    - unfold isFavorite, includes. rewrite Hmirror.
      apply bool_decide_eq_false_2. rewrite list_elem_of_filter. tauto.
    - intros x Hx. rewrite Hmirror, list_elem_of_filter, Hel. tauto. }
  split.
  { intros nw vs Hvs Hnw final. destruct vs as [| v vs]; [done |].
    destruct (addFavorite_each_store nw u vs v db st Hauth Hnw) as [Hndf Helf].
    fold final in Hndf, Helf. split; [| done].
    apply occurrences_NoDup; [done |]. apply Helf. by left. }
  intros final.
  assert (∃ x xs, ws = x :: xs) as (x & xs & ->).
  { destruct ws as [| x xs]; [| by eauto].
    apply Permutation_length in Hperm. discriminate. }
  destruct (normalize_examples Hconf) as (HA & Ha & Hsp).
  destruct (addFavorite_each_store "apple" u xs x db st Hauth) as [Hndf Helf].
  { intros y Hy. rewrite Hperm in Hy.
    repeat (apply elem_of_cons in Hy as [-> | Hy]); try done.
    by apply elem_of_nil in Hy. }
  fold final in Hndf, Helf.
  split; [| split].
  { apply occurrences_NoDup; [done |]. apply Helf. by left. }
  { intros Hempty. apply NoDup_singleton_eq; [done |].
    intros y. rewrite Helf, Hempty, elem_of_nil. tauto. }
  intros r2.
  destruct (addFavorite_store (world r) u (fst (returned r)) w' Hauth2)
    as (Htrue & _ & _ & _ & _ & Hdup).
  fold r2 in Htrue, Hdup. split; [done |].
  rewrite Hdup by (by rewrite Hnorm).
  rewrite Hnorm. by apply new_Set_snoc_known.
Qed.

Lemma favorite_words_normalized_witness :
  favorites
    (returned
       (run store
          (addFavorite_each (Some Examples.owner) (FavoriteWords.mkState [] false None)
             ["apple"; " apple "; "Apple"])
          Examples.no_favorites))
  = ["apple"] ∧
  isFavorite
    (fst (returned (run store (removeFavorite (Some Examples.owner) Examples.apple_only "Apple")
                      Examples.two_owners)))
    " apple "
  = false.
Proof.
  assert (@ascii_conforming AsciiText.engine) as Hconf by (intros s _; split; reflexivity).
  assert (["apple"; " apple "; "Apple"] ≡ₚ ["Apple"; "apple"; " apple "]) as Hperm.
  { change (["apple"; " apple "] ++ ["Apple"] ≡ₚ ["Apple"] ++ ["apple"; " apple "]).
    apply Permutation_app_comm. }
  assert (normalize " apple " = normalize "Apple") as Hnorm by reflexivity.
  split.
  - assert (auth_uid Examples.no_favorites = Some (user_id Examples.owner)) as Hauth
      by reflexivity.
    destruct (favorite_words_normalized Examples.no_favorites Examples.owner
                (FavoriteWords.mkState [] false None) _ "Apple" " apple "
                Hconf Hauth Hperm Hnorm)
      as (_ & _ & _ & _ & _ & _ & _ & _ & _ & _ & _ & _ & _ & _ & Hfinal & _).
    apply Hfinal. reflexivity.
  - assert (auth_uid Examples.two_owners = Some (user_id Examples.owner)) as Hauth
      by reflexivity.
    destruct (favorite_words_normalized Examples.two_owners Examples.owner
                Examples.apple_only _ "Apple" " apple " Hconf Hauth Hperm Hnorm)
      as (_ & _ & _ & _ & _ & _ & _ & _ & _ & _ & (_ & _ & Hgone & _) & _).
    exact Hgone.
Defined.

(** C4. When the insert of [addFavorite] is refused by the unique
    constraint (SQLSTATE 23505), the call returns [true], leaves the error
    cell alone, and the mirror becomes the set of the old entries and the
    normalized word, which it then holds exactly once.  Any other failure of
    the insert, an error of the store or a rejected request, makes the call
    return [false] with the error recorded and the mirror as it was. *)
Theorem addFavorite_unique_violation_is_success `{!Engine}
  {W} (remote : Remote favoritesE W) (w0 : W) (u : User) (st : State) (w : string) :
  let r := run remote (addFavorite (Some u) st w) w0 in
  let st' := fst (returned r) in
  let ok := snd (returned r) in
  match fst (remote _ (InsertFavorite (user_id u) (normalize w)) w0) with
  | Fulfilled (mkReply _ (Some e)) =>
      if bool_decide (code e = Some unique_violation)
      then ok = true ∧ error st' = error st ∧
           favorites st' = new_Set (favorites st ++ [normalize w]) ∧
           occurrences (normalize w) (favorites st') = 1
      else ok = false ∧ error st' = Some (as_Error "Failed to add favorite" e) ∧
           favorites st' = favorites st
  | Fulfilled (mkReply _ None) => ok = true
  | Rejected e =>
      ok = false ∧ error st' = Some (as_Error "Failed to add favorite" e) ∧
      favorites st' = favorites st
  end.
Proof.
  simpl. destruct (remote _ (InsertFavorite (user_id u) (normalize w)) w0) as [o w1].
  destruct o as [[d [e |]] | e]; simpl; [| done | done].
  unfold unique_violation. case_bool_decide as Hcode; simpl; [| done].
  split_and!; try done.
  apply occurrences_NoDup; [apply NoDup_new_Set |].
  apply elem_of_new_Set, elem_of_app. right. left.
Qed.

End FavoriteWordsProps.

(** ** Flashcards: deleting *)

Section FlashcardsDelete.
Import Flashcards.

(** [deleteDeck] asks the store for the rows it deleted and checks them:
    with no error and no row it returns [false], records the error
    "Deck not found or you don't have permission to delete it" and keeps
    the mirror; it removes the deck and returns [true] only when a row came
    back. *)
Lemma deleteDeck_verifies_rows
  {W} (remote : Remote decksE W) (w0 : W) (u : User) (st : State) (deckId : string) :
  let r := run remote (deleteDeck (Some u) st deckId) w0 in
  let st' := fst (returned r) in
  let ok := snd (returned r) in
  match remote _ GetSession w0 with
  | (Rejected e, _) =>
      ok = false ∧ decks st' = decks st ∧
      error st' = Some (as_Error "Failed to delete deck" e)
  | (Fulfilled _, w1) =>
      match fst (remote _ (DeleteDeck deckId) w1) with
      | Rejected e | Fulfilled (mkReply _ (Some e)) =>
          ok = false ∧ decks st' = decks st ∧
          error st' = Some (as_Error "Failed to delete deck" e)
      | Fulfilled (mkReply (None | Some []) None) =>
          ok = false ∧ decks st' = decks st ∧
          error st' =
            Some (new_Error "Deck not found or you don't have permission to delete it")
      | Fulfilled (mkReply (Some (_ :: _)) None) =>
          ok = true ∧ error st' = error st ∧
          decks st' = filter (fun d => FlashcardDeck.id d ≠ deckId) (decks st)
      end
  end.
Proof.
  simpl. destruct (remote _ GetSession w0) as [[s | e] w1]; simpl; [| done].
  destruct (remote _ (DeleteDeck deckId) w1) as [[[d [e |]] | e] w2]; simpl; try done.
  all: by destruct d as [[| row rows] |].
Qed.

(** [deleteCard] does not look at the rows: whenever the store deletes
    nothing and reports no error, it still returns [true] and drops the
    card from the mirror. *)
Lemma deleteCard_ignores_row_count
  (db : CardStore.t) (user : option User) (st : State) (cardId : string) :
  let r := run CardStore.store (deleteCard user st cardId) db in
  snd (returned r) = true ∧
  error (fst (returned r)) = error st ∧
  cards (fst (returned r)) = filter (fun c => FlashcardCard.id c ≠ cardId) (cards st) ∧
  (CardStore.deleted_rows db cardId = [] →
   CardStore.flashcard_cards (world r) = CardStore.flashcard_cards db).
Proof.
  simpl. split_and!; try done.
  unfold CardStore.deleted_rows. intros Hnone.
  apply filter_all. intros row Hrow HP.
  exact (filter_nil_not_elem_of _ _ row Hnone HP Hrow).
Qed.

(** C1, at the failing input.  The mirror shows card-1; the session has
    lapsed, so the store's DELETE matches no row and reports no error.
    [deleteCard] nevertheless returns [true], records no error and removes
    the card from the mirror, while the row is still in the table. *)
Theorem deleteCard_zero_rows_returns_true :
  CardStore.deleted_rows Examples.lapsed_session "card-1" = [] ∧
  CardStore.flashcard_cards
    (world (run CardStore.store
              (deleteCard (Some Examples.owner) Examples.studying "card-1")
              Examples.lapsed_session))
  = [Examples.hola] ∧
  returned (run CardStore.store
              (deleteCard (Some Examples.owner) Examples.studying "card-1")
              Examples.lapsed_session)
  = (setCards [] Examples.studying, true).
Proof. repeat split; reflexivity. Qed.

End FlashcardsDelete.

(** ** The session lookup before a request to the service *)

Section Requests.
Import WordPairs.

Lemma request_without_session `{!Engine}
  (url : string) {W} (remote : Remote httpE W) (w0 : W)
  {T} (shape : Shape T) (method endpoint : string) (body : option JsonObject) :
  fst (remote _ GetSession w0) = Fulfilled None →
  run remote (makeAuthenticatedRequest url shape method endpoint body) w0
  = mkRun (Rejected (new_Error "User must be authenticated"))
      (snd (remote _ GetSession w0)) [call GetSession].
Proof.
  intros Hnone. simpl. destruct (remote _ GetSession w0) as [o w1]. simpl in *.
  by subst o.
Qed.

Lemma request_session_rejected `{!Engine}
  (url : string) {W} (remote : Remote httpE W) (w0 : W) (err : Thrown)
  {T} (shape : Shape T) (method endpoint : string) (body : option JsonObject) :
  fst (remote _ GetSession w0) = Rejected err →
  run remote (makeAuthenticatedRequest url shape method endpoint body) w0
  = mkRun (Rejected err) (snd (remote _ GetSession w0)) [call GetSession].
Proof.
  intros Hnone. simpl. destruct (remote _ GetSession w0) as [o w1]. simpl in *.
  by subst o.
Qed.

Lemma request_with_session `{!Engine}
  (url : string) {W} (remote : Remote httpE W) (w0 : W) (session : Session)
  {T} (shape : Shape T) (method endpoint : string) (body : option JsonObject) :
  fst (remote _ GetSession w0) = Fulfilled (Some session) →
  calls (run remote (makeAuthenticatedRequest url shape method endpoint body) w0)
  = [call GetSession;
     call (Fetch shape
             (mkRequest (url +:+ endpoint) method
                [("Content-Type", "application/json");
                 ("Authorization", "Bearer " +:+ access_token session)] body))].
Proof.
  intros Hsession. simpl. destruct (remote _ GetSession w0) as [o w1]. simpl in *.
  subst o. simpl. by destruct (remote _ (Fetch shape _) w1).
Qed.

(** The helper returns the payload exactly when the session lookup finds a
    session and the service answers with a success status and a body that
    parses; every other way it throws. *)
Lemma request_settles `{!Engine}
  (url : string) {W} (remote : Remote httpE W) (w0 : W)
  {T} (shape : Shape T) (method endpoint : string) (body : option JsonObject) :
  match answer remote w0 url shape method endpoint body with
  | Answered _ (Fulfilled (Ok payload)) =>
      returned (run remote (makeAuthenticatedRequest url shape method endpoint body) w0)
      = Fulfilled payload
  | _ =>
      ∃ err,
        returned (run remote (makeAuthenticatedRequest url shape method endpoint body) w0)
        = Rejected err
  end.
Proof.
  unfold answer. simpl.
  destruct (remote _ GetSession w0) as [[[session |] | e] w1]; simpl; eauto.
  destruct (remote _ (Fetch shape _) w1) as [[[payload | e | statusText errorBody] | e] w2];
    simpl; eauto.
  destruct errorBody as [| | [v |]]; eauto. destruct (truthy v); eauto.
Qed.

End Requests.

(** ** The owner guard *)

Section OwnerGuard.
Import Flashcards.

(** C2 fails for the card operations: with no owner, [addCard] still sends
    its insert to the store. *)
Lemma addCard_without_owner_calls_store :
  ¬ silent (addCard None Examples.studying "deck-1" "adios" "goodbye").
Proof.
  intros Hsilent. specialize (Hsilent unit Examples.offline tt). discriminate Hsilent.
Qed.

(** C2, operation by operation.  The operations that read the owner
    ([createDeck], [deleteDeck], [recordProgress], [addFavorite],
    [removeFavorite]) return their failure value at once when there is
    none: nothing is sent and the remote side is untouched ([deleteDeck]
    also records "User not authenticated").  The card operations
    [addCard], [updateCard] and [deleteCard] do not read the owner: they
    send their request whether or not there is one.  The word-pair
    operations [createWordPair], [updateWordPair] and [deleteWordPair] look
    up the session instead: when there is none they send nothing to the
    service, throw "User must be authenticated" and record that message,
    with pairs and pagination as before (and likewise when the lookup
    itself fails); when there is one they send one request, which carries
    the token of that session. *)
Theorem owner_guard `{!Engine}
  {W1 W2 W3 W4 W5} (decksR : Remote decksE W1) (w1 : W1) (cardsR : Remote cardsE W2) (w2 : W2)
  (progressR : Remote progressE W3) (w3 : W3)
  (favoritesR : Remote FavoriteWords.favoritesE W4) (w4 : W4)
  (httpR : Remote WordPairs.httpE W5) (w5 : W5)
  (st : State) (fav : FavoriteWords.State) (wp : WordPairs.State) (now : Clock)
  (url name deckId cardId front back w word1 word2 pairId : string)
  (description pairType pairDescription : option string) (updates : WordPairs.Updates)
  (correct : bool) (user : option User) :
  run decksR (createDeck None st name description) w1 = mkRun (st, None) w1 [] ∧
  run decksR (deleteDeck None st deckId) w1
  = mkRun (setError (Some (new_Error "User not authenticated")) st, false) w1 [] ∧
  run progressR (recordProgress None st now cardId deckId correct) w3
  = mkRun (st, false) w3 [] ∧
  run favoritesR (FavoriteWords.addFavorite None fav w) w4 = mkRun (fav, false) w4 [] ∧
  run favoritesR (FavoriteWords.removeFavorite None fav w) w4 = mkRun (fav, false) w4 [] ∧
  calls (run cardsR (addCard user st deckId front back) w2)
  = [call (InsertCard deckId front back (Z.of_nat (length (cards st))))] ∧
  calls (run cardsR (updateCard user st now cardId front back) w2)
  = [call (UpdateCard cardId front back (now 0))] ∧
  calls (run cardsR (deleteCard user st cardId) w2) = [call (DeleteCard cardId)] ∧
  let created :=
    run httpR (WordPairs.createWordPair url wp word1 word2 pairType pairDescription) w5 in
  let updated := run httpR (WordPairs.updateWordPair url wp pairId updates) w5 in
  let deleted := run httpR (WordPairs.deleteWordPair url wp pairId) w5 in
  let refused (err : Thrown) (fallback : string) :=
    WordPairs.mkState (WordPairs.pairs wp) false (Some (message_or fallback err))
      (WordPairs.pagination wp) in
  match fst (httpR _ WordPairs.GetSession w5) with
  | Fulfilled None =>
      let err := new_Error "User must be authenticated" in
      let unauthenticated :=
        WordPairs.mkState (WordPairs.pairs wp) false (Some "User must be authenticated")
          (WordPairs.pagination wp) in
      (calls created = [call WordPairs.GetSession] ∧
       returned created = (unauthenticated, Rejected err)) ∧
      (calls updated = [call WordPairs.GetSession] ∧
       returned updated = (unauthenticated, Rejected err)) ∧
      (calls deleted = [call WordPairs.GetSession] ∧
       returned deleted = (unauthenticated, Rejected err))
  | Rejected err =>
      (calls created = [call WordPairs.GetSession] ∧
       returned created = (refused err "Failed to create word pair", Rejected err)) ∧
      (calls updated = [call WordPairs.GetSession] ∧
       returned updated = (refused err "Failed to update word pair", Rejected err)) ∧
      (calls deleted = [call WordPairs.GetSession] ∧
       returned deleted = (refused err "Failed to delete word pair", Rejected err))
  | Fulfilled (Some session) =>
      let sent {T} (shape : WordPairs.Shape T) 
            (r : Run (WordPairs.State * Outcome T) W5 WordPairs.httpE) :=
        ∃ req, calls r = [call WordPairs.GetSession; call (WordPairs.Fetch shape req)] ∧
               ("Authorization", "Bearer " +:+ access_token session) ∈ WordPairs.headers req in
      sent WordPairs.AsWordPair created ∧ sent WordPairs.AsWordPair updated ∧
      sent WordPairs.AsVoid deleted
  end.
Proof.
  split_and!; try reflexivity.
  - simpl.
    by destruct (cardsR _ (InsertCard deckId front back (Z.of_nat (length (cards st)))) w2).
  - simpl. by destruct (cardsR _ (UpdateCard cardId front back (now 0)) w2).
  - simpl. by destruct (cardsR _ (DeleteCard cardId) w2).
  - cbv zeta.
    unfold WordPairs.createWordPair, WordPairs.updateWordPair, WordPairs.deleteWordPair.
    rewrite !run_bind. cbv zeta.
    destruct (fst (httpR _ WordPairs.GetSession w5)) as [[session |] | err] eqn:Hsession.
    + rewrite !(request_with_session url httpR w5 session _ _ _ _ Hsession).
      split_and!; (eexists; split; [reflexivity |]; right; left).
    + rewrite !(request_without_session url httpR w5 _ _ _ _ Hsession). done.
    + rewrite !(request_session_rejected url httpR w5 err _ _ _ _ Hsession). done.
Qed.

End OwnerGuard.

(** ** Flashcards: creating *)

Section FlashcardsCreate.
Import Flashcards.

Lemma only_at_head {A} (x : A) (l : list A) : x ∉ l → only_at 0 x (x :: l).
Proof.
  intros Hx. split; [done |]. intros [| j] Hj; [done |].
  exfalso. apply Hx. by eapply list_elem_of_lookup_2.
Qed.

Lemma only_at_last {A} (x : A) (l : list A) : x ∉ l → only_at (length l) x (l ++ [x]).
Proof.
  intros Hx. split.
  - by rewrite lookup_app_r, Nat.sub_diag.
  - intros j Hj. destruct (decide (j < length l)) as [Hlt | Hge].
    + rewrite lookup_app_l in Hj by done.
      exfalso. apply Hx. by eapply list_elem_of_lookup_2.
    + apply lookup_lt_Some in Hj. rewrite length_app in Hj. simpl in Hj. lia.
Qed.

(** C5 fails for an [addCard] that is called again before the next render:
    the first call has put a second card into the mirror, yet the second
    call, like the first, sends 1 as [order_index], the length of the cards
    of the render it was created in; and the mirror that it leaves no
    longer holds the card of the first call.  [handleSaveWordsAsCards]
    calls its [addCard] that way, once for each word. *)
Lemma addCard_again_repeats_order_index :
  length
    (cards
       (Pages.addCard_writes
          (returned (run CardStore.store (addCard None Examples.studying "deck-1" "uno" "")
                       Examples.numbering))
          Examples.studying))
  = 2 ∧
  calls
    (run CardStore.store (addCard None Examples.studying "deck-1" "dos" "")
       (world (run CardStore.store (addCard None Examples.studying "deck-1" "uno" "")
                 Examples.numbering)))
  = [call (InsertCard "deck-1" "dos" "" 1)] ∧
  calls
    (run CardStore.store
       (Pages.handleSaveWordsAsCards None Examples.studying
          (Pages.mkPhrasePage (Some "deck-1") false true)
          [Pages.mkWord "uno"; Pages.mkWord "dos"])
       Examples.numbering)
  = [call (InsertCard "deck-1" "uno" "" 1); call (InsertCard "deck-1" "dos" "" 1)] ∧
  map FlashcardCard.id
    (cards
       (fst (fst (returned
                    (run CardStore.store
                       (Pages.handleSaveWordsAsCards None Examples.studying
                          (Pages.mkPhrasePage (Some "deck-1") false true)
                          [Pages.mkWord "uno"; Pages.mkWord "dos"])
                       Examples.numbering)))))
  = ["card-1"; "card-3"].
Proof. repeat split; reflexivity. Qed.

(** C5, for one call seen from the render it was created in.  When the
    store returns the new row, the create returns the item and puts it into
    the list of that render: [createDeck] in front of the decks, [addCard]
    behind the cards; every other way it returns nothing and the list is
    untouched.  The item is then in the mirror exactly once, at that place,
    when the id that the store handed out is new to the list.  The insert
    of [addCard] carries the length of the cards of that render as
    [order_index], and the cards table of the migration, for a deck of the
    owner, creates and returns a row with that [order_index]. *)
Theorem create_lands_at_insertion_position
  {W1 W2} (decksR : Remote decksE W1) (w1 : W1) (cardsR : Remote cardsE W2) (w2 : W2)
  (db : CardStore.t) (u : User) (user : option User) (st : State)
  (name deckId front back : string) (description : option string)
  (newDeck : FlashcardDeck.t) (newCard : FlashcardCard.t) :
  let rd := run decksR (createDeck (Some u) st name description) w1 in
  let rc := run cardsR (addCard user st deckId front back) w2 in
  let stored := run CardStore.store (addCard user st deckId front back) db in
  match fst (decksR _ (InsertDeck (user_id u) name description) w1) with
  | Fulfilled (Row data) =>
      let deck :=
        FlashcardDeck.mk (DeckRow.id data) (DeckRow.name data) (DeckRow.description data)
          (DeckRow.created_at data) (DeckRow.updated_at data) (Some 0%Z) in
      snd (returned rd) = Some deck ∧ decks (fst (returned rd)) = deck :: decks st
  | Fulfilled (NoRow _) | Rejected _ =>
      snd (returned rd) = None ∧ decks (fst (returned rd)) = decks st
  end ∧
  match fst (cardsR _ (InsertCard deckId front back (Z.of_nat (length (cards st)))) w2) with
  | Fulfilled (Row data) =>
      snd (returned rc) = Some data ∧ cards (fst (returned rc)) = cards st ++ [data]
  | Fulfilled (NoRow _) | Rejected _ =>
      snd (returned rc) = None ∧ cards (fst (returned rc)) = cards st
  end ∧
  calls rc = [call (InsertCard deckId front back (Z.of_nat (length (cards st))))] ∧
  (∀ c, snd (returned stored) = Some c →
        FlashcardCard.order_index c = Z.of_nat (length (cards st))) ∧
  (deckId ∈ CardStore.owned_decks db →
   ∃ c, snd (returned stored) = Some c ∧
        FlashcardCard.order_index c = Z.of_nat (length (cards st)) ∧
        CardStore.flashcard_cards (world stored) = CardStore.flashcard_cards db ++ [c]) ∧
  (snd (returned rd) = Some newDeck →
   FlashcardDeck.id newDeck ∉ map FlashcardDeck.id (decks st) →
   decks (fst (returned rd)) = newDeck :: decks st ∧
   only_at 0 newDeck (decks (fst (returned rd)))) ∧
  (snd (returned rc) = Some newCard →
   FlashcardCard.id newCard ∉ map FlashcardCard.id (cards st) →
   cards (fst (returned rc)) = cards st ++ [newCard] ∧
   only_at (length (cards st)) newCard (cards (fst (returned rc)))).
Proof.
  intros rd rc stored. split_and!.
  - subst rd. simpl.
    by destruct (decksR _ (InsertDeck (user_id u) name description) w1)
      as [[[data | e] | e] w].
  - subst rc. simpl.
    by destruct (cardsR _ (InsertCard deckId front back (Z.of_nat (length (cards st)))) w2)
      as [[[data | e] | e] w].
  - subst rc. simpl.
    by destruct (cardsR _ (InsertCard deckId front back (Z.of_nat (length (cards st)))) w2).
  - intros c. subst stored. simpl. case_bool_decide; simpl; [| discriminate].
    by intros [= <-].
  - intros Howned. subst stored. simpl. rewrite bool_decide_eq_true_2 by done. simpl.
    eexists. split_and!; reflexivity.
  - intros Hdeck Hdeck_new.
    assert (newDeck ∉ decks st) as Hd.
    { intros Hin. apply Hdeck_new. by apply list_elem_of_fmap_2. }
    assert (decks (fst (returned rd)) = newDeck :: decks st) as Hdecks.
    { subst rd. simpl in *.
      destruct (decksR _ (InsertDeck (user_id u) name description) w1) as [[[data | e] | e] w];
        simpl in *; [| discriminate | discriminate].
      by injection Hdeck as <-. }
    split; [done |]. rewrite Hdecks. by apply only_at_head.
  - intros Hcard Hcard_new.
    assert (newCard ∉ cards st) as Hc.
    { intros Hin. apply Hcard_new. by apply list_elem_of_fmap_2. }
    assert (cards (fst (returned rc)) = cards st ++ [newCard]) as Hcards.
    { subst rc. simpl in *.
      destruct (cardsR _ (InsertCard deckId front back (Z.of_nat (length (cards st)))) w2)
        as [[[data | e] | e] w]; simpl in *; [| discriminate | discriminate].
      by injection Hcard as <-. }
    split; [done |]. rewrite Hcards. by apply only_at_last.
Qed.

Lemma create_lands_at_insertion_position_witness :
  decks (fst (returned (run Examples.accepting_decks
                          (createDeck (Some Examples.owner) Examples.studying
                             "French 101" None) tt)))
  = [FlashcardDeck.mk "deck-2" "French 101" None
       "2026-02-06T09:00:00Z" "2026-02-06T09:00:00Z" (Some 0%Z);
     Examples.spanish] ∧
  cards (fst (returned (run CardStore.store
                          (addCard None Examples.studying "deck-1" "adios" "goodbye")
                          Examples.signed_in)))
  = [Examples.hola;
     FlashcardCard.mk "card-2" "deck-1" "adios" "goodbye" 1
       "2026-02-06T09:00:00Z" "2026-02-06T09:00:00Z"].
Proof.
  assert (H := create_lands_at_insertion_position
    Examples.accepting_decks tt CardStore.store Examples.signed_in Examples.signed_in
    Examples.owner None Examples.studying "French 101" "deck-1" "adios" "goodbye" None
    (FlashcardDeck.mk "deck-2" "French 101" None
       "2026-02-06T09:00:00Z" "2026-02-06T09:00:00Z" (Some 0%Z))
    (FlashcardCard.mk "card-2" "deck-1" "adios" "goodbye" 1
       "2026-02-06T09:00:00Z" "2026-02-06T09:00:00Z")).
  cbv zeta in H.
  destruct H as (_ & _ & _ & _ & _ & Hdecks & Hcards).
  destruct Hdecks as (Hdecks & _).
  - reflexivity.
  - vm_compute. intros Hin. by repeat (inversion Hin as [| ? ? ? Hin']; clear Hin; rename Hin' into Hin).
  - destruct Hcards as (Hcards & _).
    + reflexivity.
    + vm_compute. intros Hin. by repeat (inversion Hin as [| ? ? ? Hin']; clear Hin; rename Hin' into Hin).
    + split; [exact Hdecks | exact Hcards].
Defined.

End FlashcardsCreate.

(** ** Flashcards: fetching *)

Section FlashcardsFetch.
Import Flashcards.

(** C8 fails for [fetchProgress]: the request is rejected, and the error
    cell is still empty afterwards. *)
Lemma fetchProgress_failure_leaves_no_error :
  fst (Examples.offline _ (SelectProgress "owner-1" "deck-1") tt)
  = Rejected (new_Error "Failed to fetch") ∧
  error (returned (run Examples.offline
                     (fetchProgress (Some Examples.owner) Examples.studying "deck-1") tt))
  = None.
Proof. split; reflexivity. Qed.

(** C8, as the three fetches have it.  [fetchDecks] and [fetchCards]: when the query fails, by
    an error of the store or a rejected request, the error is recorded, the
    mirror is the one from before and [loading] ends up [false]; when it
    succeeds, the mirror is replaced by the rows in the order in which the
    store returned them (each deck row with its card count), with no error
    and [loading] false.  [fetchProgress]: when the query succeeds, the
    progress mirror is replaced by the rows keyed by their card; when it
    fails, the whole state is left as it was and nothing is recorded. *)
Theorem fetch_outcomes
  {W1 W2 W3} (decksR : Remote decksE W1) (w1 : W1) (cardsR : Remote cardsE W2) (w2 : W2)
  (progressR : Remote progressE W3) (w3 : W3)
  (u : User) (user : option User) (st : State) (deckId : string) :
  let sd := returned (run decksR (fetchDecks (Some u) st) w1) in
  let sc := returned (run cardsR (fetchCards user st deckId) w2) in
  let sp := returned (run progressR (fetchProgress (Some u) st deckId) w3) in
  match fst (decksR _ (SelectDecks (user_id u)) w1) with
  | Rejected e | Fulfilled (mkReply _ (Some e)) =>
      error sd = Some (as_Error "Failed to fetch decks" e) ∧
      decks sd = decks st ∧ loading sd = false
  | Fulfilled (mkReply rows None) =>
      decks sd = map deck_with_count (default [] rows) ∧
      error sd = None ∧ loading sd = false
  end ∧
  match fst (cardsR _ (SelectCards deckId) w2) with
  | Rejected e | Fulfilled (mkReply _ (Some e)) =>
      error sc = Some (as_Error "Failed to fetch cards" e) ∧
      cards sc = cards st ∧ loading sc = false
  | Fulfilled (mkReply rows None) =>
      cards sc = default [] rows ∧ error sc = None ∧ loading sc = false
  end ∧
  match fst (progressR _ (SelectProgress (user_id u) deckId) w3) with
  | Rejected _ | Fulfilled (mkReply _ (Some _)) => sp = st
  | Fulfilled (mkReply rows None) => sp = setProgress (progressMap (default [] rows)) st
  end.
Proof.
  simpl. split_and!.
  - by destruct (decksR _ (SelectDecks (user_id u)) w1) as [[[rows [e |]] | e] w].
  - by destruct (cardsR _ (SelectCards deckId) w2) as [[[rows [e |]] | e] w].
  - by destruct (progressR _ (SelectProgress (user_id u) deckId) w3) as [[[rows [e |]] | e] w].
Qed.

End FlashcardsFetch.

(** ** Flashcards: recording progress *)

Section FlashcardsProgress.
Import Flashcards.

Lemma recordProgress_sends
  {W} (remote : Remote progressE W) (w0 : W) (u : User) (st : State) (now : Clock)
  (cardId deckId : string) (correct : bool) :
  let r := run remote (recordProgress (Some u) st now cardId deckId correct) w0 in
  let write :=
    match progress st !! cardId with
    | Some existing =>
        call (UpdateProgress (FlashcardProgress.id existing)
                (FlashcardProgress.correct_count existing + (if correct then 1 else 0))
                (FlashcardProgress.incorrect_count existing + (if correct then 0 else 1))
                (now 0) (now 1))
    | None =>
        call (InsertProgress (user_id u) cardId deckId
                (if correct then 1 else 0) (if correct then 0 else 1) (now 0))
    end in
  if snd (returned r)
  then calls r = [write; call (SelectProgress (user_id u) deckId)]
  else calls r = [write] ∧ fst (returned r) = st.
Proof.
  unfold recordProgress.
  destruct (progress st !! cardId) as [existing |]; cbn [run].
  - destruct (remote _ _ w0) as [[[d [e |]] | e] w]; cbn; try done.
    by destruct (remote _ (SelectProgress (user_id u) deckId) w).
  - destruct (remote _ _ w0) as [[[d [e |]] | e] w]; cbn; try done.
    by destruct (remote _ (SelectProgress (user_id u) deckId) w).
Qed.

Lemma recordProgress_first (db : ProgressStore.t) (u : User) (st : State) (now : Clock)
  (cardId deckId : string) (correct : bool) :
  ProgressStore.auth_uid db = Some (user_id u) →
  progress st !! cardId = None →
  ¬ Exists (fun row => ProgressStore.user_id row = user_id u ∧ ProgressStore.card_id row = cardId)
      (ProgressStore.flashcard_progress db) →
  let r := run ProgressStore.store (recordProgress (Some u) st now cardId deckId correct) db in
  let row :=
    ProgressStore.mkRow (ProgressStore.gen_random_uuid db (ProgressStore.flashcard_progress db))
      (user_id u) cardId deckId (if correct then 1 else 0) (if correct then 0 else 1)
      (Some (now 0)) in
  snd (returned r) = true ∧
  ProgressStore.auth_uid (world r) = ProgressStore.auth_uid db ∧
  ProgressStore.flashcard_progress (world r) = ProgressStore.flashcard_progress db ++ [row] ∧
  progress (fst (returned r)) !! cardId = Some (ProgressStore.select_star row).
Proof.
  intros Hauth Hnone Hfree. unfold recordProgress. rewrite Hnone. cbn [run ProgressStore.store].
  rewrite bool_decide_eq_true_2 by done. rewrite bool_decide_eq_false_2 by done.
  cbn. split_and!; try done.
  rewrite filter_app, filter_cons_True, filter_nil by (by unfold ProgressStore.visible).
  rewrite map_app. cbn [map]. rewrite fold_left_app. cbn.
  apply lookup_insert_eq.
Qed.

Lemma recordProgress_again (db : ProgressStore.t) (u : User) (st : State) (now : Clock)
  (cardId deckId : string) (correct : bool)
  (rows : list ProgressStore.Row) (row : ProgressStore.Row) :
  ProgressStore.auth_uid db = Some (user_id u) →
  ProgressStore.flashcard_progress db = rows ++ [row] →
  ProgressStore.user_id row = user_id u →
  ProgressStore.card_id row = cardId →
  ProgressStore.deck_id row = deckId →
  progress st !! cardId = Some (ProgressStore.select_star row) →
  let r := run ProgressStore.store (recordProgress (Some u) st now cardId deckId correct) db in
  snd (returned r) = true ∧
  progress (fst (returned r)) !! cardId
  = Some (FlashcardProgress.mk (ProgressStore.id row) cardId
            (ProgressStore.correct_count row + (if correct then 1 else 0))
            (ProgressStore.incorrect_count row + (if correct then 0 else 1))
            (Some (now 0))).
Proof.
  intros Hauth Hrows Huser Hcard Hdeck Hsome. unfold recordProgress. rewrite Hsome.
  cbn. split; [done |]. rewrite Hrows.
  rewrite map_app. cbn [map].
  rewrite (bool_decide_eq_true_2 (ProgressStore.visible db row ∧ _))
    by (split; [unfold ProgressStore.visible; congruence | done]).
  rewrite filter_app, filter_cons_True, filter_nil.
  2:{ unfold ProgressStore.visible. cbn. split_and!; congruence. }
  rewrite map_app. cbn [map]. rewrite fold_left_app.
  unfold ProgressStore.select_star at 2, ProgressStore.set_counts. cbn.
  rewrite Hcard. apply lookup_insert_eq.
Qed.

(** C7 fails for two calls made from one render: the second call finds no
    record in the mirror of that render either and sends a second insert,
    which the table refuses ([UNIQUE(user_id, card_id)]); the call returns
    [false] and the record stays at one correct answer. *)
Lemma recordProgress_again_from_one_render :
  snd (returned (run ProgressStore.store
                   (recordProgress (Some Examples.owner) Examples.studying Examples.morning
                      "card-1" "deck-1" true)
                   Examples.no_progress))
  = true ∧
  returned
    (run ProgressStore.store
       (recordProgress (Some Examples.owner) Examples.studying Examples.evening
          "card-1" "deck-1" true)
       (world (run ProgressStore.store
                 (recordProgress (Some Examples.owner) Examples.studying Examples.morning
                    "card-1" "deck-1" true)
                 Examples.no_progress)))
  = (Examples.studying, false) ∧
  map (fun row => (ProgressStore.correct_count row, ProgressStore.incorrect_count row))
    (ProgressStore.flashcard_progress
       (world
          (run ProgressStore.store
             (recordProgress (Some Examples.owner) Examples.studying Examples.evening
                "card-1" "deck-1" true)
             (world (run ProgressStore.store
                       (recordProgress (Some Examples.owner) Examples.studying Examples.morning
                          "card-1" "deck-1" true)
                       Examples.no_progress)))))
  = [(1%Z, 0%Z)].
Proof. repeat split; reflexivity. Qed.

(** C7, with the premises of the two-call sentence.  [recordProgress] with a
    record for the card in the mirror of its render sends an update whose
    counts are the mirrored ones with exactly one of them raised by one,
    and with [last_reviewed_at] set to the time of the call; with no record
    it sends an insert whose counts are 1 and 0, or 0 and 1.  When the write
    goes through it then fetches the progress of the deck again.  Against
    the progress table of the migration, for a signed-in owner and a card
    with no record in the mirror or the table, two calls with
    [correct = true], the second made from the state that the first call
    left, leave a record with [correct_count = 2] and [incorrect_count = 0]
    in the mirror. *)
Theorem recordProgress_counts
  {W} (remote : Remote progressE W) (w0 : W) (db : ProgressStore.t) (u : User)
  (st st1 : State) (now later : Clock) (cardId deckId : string) (correct : bool) :
  ProgressStore.auth_uid db = Some (user_id u) →
  progress st1 !! cardId = None →
  ¬ Exists (fun row => ProgressStore.user_id row = user_id u ∧ ProgressStore.card_id row = cardId)
      (ProgressStore.flashcard_progress db) →
  let r := run remote (recordProgress (Some u) st now cardId deckId correct) w0 in
  let request :=
    match progress st !! cardId with
    | Some existing =>
        UpdateProgress (FlashcardProgress.id existing)
          (FlashcardProgress.correct_count existing + (if correct then 1 else 0))
          (FlashcardProgress.incorrect_count existing + (if correct then 0 else 1))
          (now 0) (now 1)
    | None =>
        InsertProgress (user_id u) cardId deckId
          (if correct then 1 else 0) (if correct then 0 else 1) (now 0)
    end in
  let write :=
    match progress st !! cardId with
    | Some existing =>
        call (UpdateProgress (FlashcardProgress.id existing)
                (FlashcardProgress.correct_count existing + (if correct then 1 else 0))
                (FlashcardProgress.incorrect_count existing + (if correct then 0 else 1))
                (now 0) (now 1))
    | None =>
        call (InsertProgress (user_id u) cardId deckId
                (if correct then 1 else 0) (if correct then 0 else 1) (now 0))
    end in
  (if snd (returned r)
   then calls r = [write; call (SelectProgress (user_id u) deckId)]
   else calls r = [write] ∧ fst (returned r) = st) ∧
  match fst (remote _ request w0) with
  | Fulfilled (mkReply _ None) =>
      snd (returned r) = true ∧
      calls r = [call request; call (SelectProgress (user_id u) deckId)]
  | Fulfilled (mkReply _ (Some _)) | Rejected _ =>
      returned r = (st, false) ∧ calls r = [call request]
  end ∧
  let r1 := run ProgressStore.store (recordProgress (Some u) st1 now cardId deckId true) db in
  let r2 :=
    run ProgressStore.store
      (recordProgress (Some u) (fst (returned r1)) later cardId deckId true) (world r1) in
  snd (returned r1) = true ∧
  snd (returned r2) = true ∧
  ∃ p, progress (fst (returned r2)) !! cardId = Some p ∧
       FlashcardProgress.correct_count p = 2%Z ∧
       FlashcardProgress.incorrect_count p = 0%Z ∧
       FlashcardProgress.last_reviewed_at p = Some (later 0).
Proof.
  intros Hauth Hnone Hfree r request write.
  split; [apply recordProgress_sends |].
  split.
  { subst r request. unfold recordProgress.
    destruct (progress st !! cardId) as [existing |]; cbn [run].
    - destruct (remote _ _ w0) as [[[d [e |]] | e] w]; cbn; try done.
      by destruct (remote _ (SelectProgress (user_id u) deckId) w).
    - destruct (remote _ _ w0) as [[[d [e |]] | e] w]; cbn; try done.
      by destruct (remote _ (SelectProgress (user_id u) deckId) w). }
  intros r1 r2.
  destruct (recordProgress_first db u st1 now cardId deckId true Hauth Hnone Hfree)
    as (Hok1 & Hauth1 & Hrows1 & Hmirror1).
  fold r1 in Hok1, Hauth1, Hrows1, Hmirror1.
  rewrite Hauth in Hauth1.
  destruct (recordProgress_again (world r1) u (fst (returned r1)) later cardId deckId true
              _ _ Hauth1 Hrows1 eq_refl eq_refl eq_refl Hmirror1) as (Hok2 & Hmirror2).
  fold r2 in Hok2, Hmirror2.
  split_and!; [done | done |].
  eexists. split; [exact Hmirror2 |]. done.
Qed.

Lemma recordProgress_counts_witness :
  ∃ p,
    progress
      (fst (returned
              (run ProgressStore.store
                 (recordProgress (Some Examples.owner)
                    (fst (returned
                            (run ProgressStore.store
                               (recordProgress (Some Examples.owner) Examples.studying
                                  Examples.morning "card-1" "deck-1" true)
                               Examples.no_progress)))
                    Examples.evening "card-1" "deck-1" true)
                 (world (run ProgressStore.store
                           (recordProgress (Some Examples.owner) Examples.studying
                              Examples.morning "card-1" "deck-1" true)
                           Examples.no_progress)))))
    !! "card-1" = Some p ∧
    FlashcardProgress.correct_count p = 2%Z ∧
    FlashcardProgress.incorrect_count p = 0%Z ∧
    FlashcardProgress.last_reviewed_at p = Some "2026-02-06T21:00:00Z".
Proof.
  assert (H := recordProgress_counts (@Examples.offline progressE) tt Examples.no_progress
                 Examples.owner Examples.studying Examples.studying
                 Examples.morning Examples.evening "card-1" "deck-1" true).
  cbv zeta in H.
  destruct H as (_ & _ & _ & _ & Hp).
  - reflexivity.
  - apply lookup_empty.
  - intros Hex. inversion Hex.
  - exact Hp.
Defined.

End FlashcardsProgress.

(** ** Updating in place *)

Section UpdateInPlace.

Lemma replace_by_id_lookup {A} (f : A → A) (l : list A) (i : nat) (x : A) :
  l !! i = Some x → map f l !! i = Some (f x).
Proof. intros Hx. by rewrite list_lookup_fmap, Hx. Qed.

(** C6. [updateCard] and [updateWordPair].  When the store returns the
    updated row (for [updateWordPair]: when there is a session and the
    service answers the PUT with a success status and the updated pair),
    the call returns that item, and the mirror is the old list with every
    item of the given id replaced by it where it stands: the length is the
    same, every other item is where it was, and no error is recorded.
    Every other way the call fails: the list is the one from before and the
    error is recorded ([updateWordPair] also rethrows it). *)
Theorem update_replaces_in_place `{!Engine}
  (url : string) {W1 W2}
  (cardsR : Remote Flashcards.cardsE W1) (w1 : W1)
  (httpR : Remote WordPairs.httpE W2) (w2 : W2)
  (user : option User) (st : Flashcards.State) (now : Flashcards.Clock)
  (cardId front back : string)
  (wp : WordPairs.State) (pairId : string) (updates : WordPairs.Updates) :
  let rc := returned (run cardsR (Flashcards.updateCard user st now cardId front back) w1) in
  let rp := returned (run httpR (WordPairs.updateWordPair url wp pairId updates) w2) in
  match fst (cardsR _ (Flashcards.UpdateCard cardId front back (now 0)) w1) with
  | Fulfilled (Row data) =>
      snd rc = Some data ∧
      Flashcards.cards (fst rc)
      = map (fun c => if bool_decide (Flashcards.FlashcardCard.id c = cardId) then data else c)
          (Flashcards.cards st) ∧
      length (Flashcards.cards (fst rc)) = length (Flashcards.cards st) ∧
      (∀ i c, Flashcards.cards st !! i = Some c →
              Flashcards.cards (fst rc) !! i
              = Some (if bool_decide (Flashcards.FlashcardCard.id c = cardId)
                      then data else c)) ∧
      Flashcards.error (fst rc) = Flashcards.error st
  | Fulfilled (NoRow e) | Rejected e =>
      snd rc = None ∧
      Flashcards.cards (fst rc) = Flashcards.cards st ∧
      Flashcards.error (fst rc) = Some (as_Error "Failed to update card" e)
  end ∧
  match answer httpR w2 url WordPairs.AsWordPair "PUT" ("/api/word-pairs/" +:+ pairId)
          (Some (WordPairs.updatePayload updates)) with
  | Answered _ (Fulfilled (WordPairs.Ok data)) =>
      snd rp = Fulfilled data ∧
      WordPairs.pairs (fst rp)
      = map (fun p => if bool_decide (WordPairs.WordPair.id p = pairId) then data else p)
          (WordPairs.pairs wp) ∧
      length (WordPairs.pairs (fst rp)) = length (WordPairs.pairs wp) ∧
      (∀ i p, WordPairs.pairs wp !! i = Some p →
              WordPairs.pairs (fst rp) !! i
              = Some (if bool_decide (WordPairs.WordPair.id p = pairId)
                      then data else p)) ∧
      WordPairs.error (fst rp) = None
  | _ =>
      ∃ err,
        snd rp = Rejected err ∧
        WordPairs.pairs (fst rp) = WordPairs.pairs wp ∧
        WordPairs.error (fst rp) = Some (message_or "Failed to update word pair" err)
  end.
Proof.
  split.
  - simpl.
    destruct (cardsR _ (Flashcards.UpdateCard cardId front back (now 0)) w1)
      as [[[data | e] | e] w]; simpl; try done.
    split_and!; [done | done | apply length_map | | done].
    intros i c Hc.
    exact (replace_by_id_lookup
             (fun c => if bool_decide (Flashcards.FlashcardCard.id c = cardId) then data else c)
             _ _ _ Hc).
  - assert (Hrequest := request_settles url httpR w2 WordPairs.AsWordPair "PUT"
                          ("/api/word-pairs/" +:+ pairId)
                          (Some (WordPairs.updatePayload updates))).
    unfold WordPairs.updateWordPair. rewrite run_bind. cbn zeta. cbn [returned run].
    destruct (answer httpR w2 url WordPairs.AsWordPair "PUT" ("/api/word-pairs/" +:+ pairId)
                (Some (WordPairs.updatePayload updates)))
      as [| e | session [[data | e | statusText errorBody] | e]].
    3:{ rewrite Hrequest. simpl.
        split_and!; [done | done | apply length_map | | done].
        intros i p Hp.
        exact (replace_by_id_lookup
                 (fun p => if bool_decide (WordPairs.WordPair.id p = pairId) then data else p)
                 _ _ _ Hp). }
    all: destruct Hrequest as [err ->]; by exists err.
Qed.

End UpdateInPlace.

(** ** The authenticated request *)

Section AuthenticatedRequest.
Import WordPairs.

(** C9 fails when the error page is not JSON: a 502 with status text
    "Bad Gateway" and an HTML body is thrown as "Unknown error". *)
Lemma bad_gateway_is_unknown_error :
  returned (run Examples.bad_gateway
              (makeAuthenticatedRequest "http://localhost:8000" AsWordPair
                 "POST" "/api/word-pairs" None) tt)
  = Rejected (new_Error "Unknown error") ∧
  message (new_Error "Unknown error") ≠ "Bad Gateway".
Proof. split; [reflexivity | discriminate]. Qed.

(** C9, with the messages as they are built.  [makeAuthenticatedRequest]
    first looks up the session.  Without one it throws "User must be
    authenticated" and sends nothing.  With one it sends exactly one
    request, to the service URL followed by the endpoint, with the header
    [Authorization: Bearer <access token>] of that session.  When the
    status is not a success, what it throws depends on the body: when the
    body is not JSON, an [Error] with the message "Unknown error"; when the
    body is the JSON value [null], the engine's [TypeError] for reading
    [error] from [null]; otherwise an [Error] whose message is the [error]
    property of the body when that is truthy, and "Request failed: "
    followed by the status text when it is not. *)
Theorem makeAuthenticatedRequest_contract `{!Engine}
  (url : string) {W} (remote : Remote httpE W) (w0 : W)
  {T} (shape : Shape T) (method endpoint : string) (body : option JsonObject) :
  let r := run remote (makeAuthenticatedRequest url shape method endpoint body) w0 in
  match remote _ GetSession w0 with
  | (Rejected e, _) => returned r = Rejected e ∧ calls r = [call GetSession]
  | (Fulfilled None, _) =>
      returned r = Rejected (new_Error "User must be authenticated") ∧
      calls r = [call GetSession]
  | (Fulfilled (Some session), w1) =>
      let req :=
        mkRequest (url +:+ endpoint) method
          [("Content-Type", "application/json");
           ("Authorization", "Bearer " +:+ access_token session)] body in
      calls r = [call GetSession; call (Fetch shape req)] ∧
      match fst (remote _ (Fetch shape req) w1) with
      | Fulfilled (NotOk statusText NotJson) =>
          returned r = Rejected (new_Error "Unknown error")
      | Fulfilled (NotOk statusText (Json (Some v))) =>
          returned r =
            Rejected (new_Error (if truthy v then String_of v
                                 else "Request failed: " +:+ statusText))
      | Fulfilled (NotOk statusText (Json None)) =>
          returned r = Rejected (new_Error ("Request failed: " +:+ statusText))
      | Fulfilled (NotOk statusText JsonNull) => returned r = Rejected (null_TypeError "error")
      | Fulfilled (Ok payload) => returned r = Fulfilled payload
      | Fulfilled (OkNotJson e) | Rejected e => returned r = Rejected e
      end
  end.
Proof.
  simpl. destruct (remote _ GetSession w0) as [[[session |] | e] w1]; simpl; try done.
  destruct (remote _ (Fetch shape _) w1) as [[[payload | e | statusText errorBody] | e] w2];
    simpl; try done.
  split; [done |]. destruct errorBody as [| | [v |]]; try done.
  by destruct (truthy v).
Qed.

End AuthenticatedRequest.

(** ** Word pairs: the pagination record *)

Section WordPairsPagination.
Import WordPairs.

(** Use what [request_settles] says of a request in the goal. *)
Ltac settle H :=
  match type of H with
  | returned (run ?r (makeAuthenticatedRequest ?u ?s ?m _ _) ?w) = ?o =>
      match goal with
      | |- context [returned (run r (makeAuthenticatedRequest u s m ?e ?b) w)] =>
          change (returned (run r (makeAuthenticatedRequest u s m e b) w) = o) in H;
          rewrite H
      end
  end.

(** C10 fails for [fetchWordPairs]: it copies the count that the service
    reports into [total] as it comes, here -3. *)
Lemma fetchWordPairs_copies_negative_count :
  answer Examples.miscounting tt "http://localhost:8000" AsWordPairsResponse "GET"
    "/api/word-pairs?page=1&limit=20" None
  = Answered Examples.session (Fulfilled (Ok (mkWordPairsResponse [Examples.big_small] (-3) 1 20))) ∧
  total (pagination
           (returned (run Examples.miscounting
                        (fetchWordPairs "http://localhost:8000" initial None None) tt)))
  = (-3)%Z.
Proof. split; reflexivity. Qed.

(** C10, operation by operation.  When there is a session and the service
    answers with a success status and a body that parses, the operation
    succeeds: [createWordPair] raises [total] by one, [deleteWordPair]
    lowers it by one but not below zero (a total of zero stays zero), both
    keeping page and page size, and [fetchWordPairs] takes page, page size
    and total from the answer as they come, so that [total] is then the
    count that the service reported, negative or not.  Every other way the
    operation fails and leaves the pagination record as it was.
    [updateWordPair] never touches the record.  So a total that is not
    negative stays so through create, update and delete. *)
Theorem pagination_total_nonnegative `{!Engine}
  (url : string) {W} (remote : Remote httpE W) (w0 : W) (st : State)
  (page limit : option Z) (word1 word2 pairId : string)
  (pairType description : option string) (updates : Updates) :
  let fetched := returned (run remote (fetchWordPairs url st page limit) w0) in
  let created :=
    returned (run remote (createWordPair url st word1 word2 pairType description) w0) in
  let updated := returned (run remote (updateWordPair url st pairId updates) w0) in
  let deleted := returned (run remote (deleteWordPair url st pairId) w0) in
  let p := pagination st in
  match answer remote w0 url AsWordPairsResponse "GET"
          ("/api/word-pairs?page=" +:+ pretty (default 1%Z page)
           +:+ "&limit=" +:+ pretty (default 20%Z limit)) None with
  | Answered _ (Fulfilled (Ok response)) =>
      pagination fetched
      = mkPagination (WordPairs.page response) (WordPairs.limit response) (count response) ∧
      error fetched = None
  | _ => pagination fetched = p ∧ error fetched ≠ None
  end ∧
  match answer remote w0 url AsWordPair "POST" "/api/word-pairs"
          (Some [("word1", Some (trim word1)); ("word2", Some (trim word2));
                 ("pair_type", Some (default "custom" pairType));
                 ("description", trimmed_or_null description);
                 ("user_id", Some "")]) with
  | Answered _ (Fulfilled (Ok newPair)) =>
      snd created = Fulfilled newPair ∧
      pagination (fst created) = mkPagination (p_page p) (p_limit p) (total p + 1)
  | _ => (∃ err, snd created = Rejected err) ∧ pagination (fst created) = p
  end ∧
  pagination (fst updated) = p ∧
  match answer remote w0 url AsVoid "DELETE" ("/api/word-pairs/" +:+ pairId) None with
  | Answered _ (Fulfilled (Ok _)) =>
      snd deleted = Fulfilled tt ∧
      pagination (fst deleted) = mkPagination (p_page p) (p_limit p) (Z.max 0 (total p - 1)) ∧
      (total p = 0%Z → total (pagination (fst deleted)) = 0%Z) ∧
      ((0 < total p)%Z → total (pagination (fst deleted)) = (total p - 1)%Z)
  | _ => (∃ err, snd deleted = Rejected err) ∧ pagination (fst deleted) = p
  end ∧
  ((0 ≤ total p)%Z →
   (0 ≤ total (pagination (fst created)))%Z ∧
   (0 ≤ total (pagination (fst updated)))%Z ∧
   (0 ≤ total (pagination (fst deleted)))%Z).
Proof.
  intros fetched created updated deleted p.
  assert (Hfetch := request_settles url remote w0 AsWordPairsResponse "GET"
                      ("/api/word-pairs?page=" +:+ pretty (default 1%Z page)
                       +:+ "&limit=" +:+ pretty (default 20%Z limit)) None).
  assert (Hcreate := request_settles url remote w0 AsWordPair "POST" "/api/word-pairs"
                       (Some [("word1", Some (trim word1)); ("word2", Some (trim word2));
                              ("pair_type", Some (default "custom" pairType));
                              ("description", trimmed_or_null description);
                              ("user_id", Some "")])).
  assert (Hdelete := request_settles url remote w0 AsVoid "DELETE"
                       ("/api/word-pairs/" +:+ pairId) None).
  subst fetched created updated deleted p.
  unfold fetchWordPairs, createWordPair, updateWordPair, deleteWordPair.
  rewrite !run_bind. cbn zeta. cbn [returned run].
  assert (pagination
            (fst match returned (run remote
                                   (makeAuthenticatedRequest url AsWordPair "PUT"
                                      ("/api/word-pairs/" +:+ pairId)
                                      (Some (updatePayload updates))) w0) with
                 | Fulfilled updatedPair =>
                     (mkState
                        (map (fun q => if bool_decide (WordPair.id q = pairId)
                                       then updatedPair else q)
                           (pairs (mkState (pairs st) true None (pagination st))))
                        false (error (mkState (pairs st) true None (pagination st)))
                        (pagination (mkState (pairs st) true None (pagination st))),
                      Fulfilled updatedPair)
                 | Rejected err =>
                     (mkState (pairs (mkState (pairs st) true None (pagination st))) false
                        (Some (message_or "Failed to update word pair" err))
                        (pagination (mkState (pairs st) true None (pagination st))),
                      Rejected err)
                 end) = pagination st) as Hupdated.
  { by destruct (returned (run remote (makeAuthenticatedRequest url AsWordPair "PUT" _ _) w0)). }
  split_and!.
  - destruct (answer remote w0 url AsWordPairsResponse "GET" _ None)
      as [| e | session [[response | e | statusText errorBody] | e]].
    3:{ by settle Hfetch. }
    all: destruct Hfetch as [err Herr]; by settle Herr.
  - destruct (answer remote w0 url AsWordPair "POST" _ _)
      as [| e | session [[newPair | e | statusText errorBody] | e]].
    3:{ by settle Hcreate. }
    all: destruct Hcreate as [err Herr]; settle Herr; split; [by exists err | done].
  - exact Hupdated.
  - destruct (answer remote w0 url AsVoid "DELETE" _ None)
      as [| e | session [[[] | e | statusText errorBody] | e]].
    3:{ settle Hdelete. simpl. split_and!; try done; lia. }
    all: destruct Hdelete as [err Herr]; settle Herr; split; [by exists err | done].
  - intros Htotal. split_and!.
    + destruct (returned (run remote (makeAuthenticatedRequest url AsWordPair "POST" _ _) w0));
        simpl; lia.
    + rewrite Hupdated. done.
    + destruct (returned (run remote (makeAuthenticatedRequest url AsVoid "DELETE" _ _) w0));
        simpl; lia.
Qed.

Lemma pagination_total_nonnegative_witness :
  total (pagination
           (fst (returned (run Examples.accepting
                             (deleteWordPair "http://localhost:8000" Examples.second_page
                                "pair-1") tt))))
  = 44%Z ∧
  total (pagination
           (fst (returned (run Examples.accepting
                             (createWordPair "http://localhost:8000" Examples.second_page
                                "big" "small" (Some "antonym") None) tt))))
  = 46%Z ∧
  (0 ≤ total (pagination
                (fst (returned (run Examples.accepting
                                  (deleteWordPair "http://localhost:8000" initial
                                     "pair-1") tt)))))%Z.
Proof.
  assert (H := pagination_total_nonnegative "http://localhost:8000" Examples.accepting tt
                 Examples.second_page None None "big" "small" "pair-1" (Some "antonym") None
                 (mkUpdates (Some "large") None None None)).
  assert (H0 := pagination_total_nonnegative "http://localhost:8000" Examples.accepting tt
                  initial None None "big" "small" "pair-1" (Some "antonym") None
                  (mkUpdates (Some "large") None None None)).
  cbv zeta in H, H0.
  destruct H as (_ & Hcreated & _ & Hdeleted & _).
  destruct H0 as (_ & _ & _ & _ & Hnonneg).
  change (answer Examples.accepting tt "http://localhost:8000" AsWordPair "POST"
            "/api/word-pairs"
            (Some [("word1", Some (trim "big")); ("word2", Some (trim "small"));
                   ("pair_type", Some (default "custom" (Some "antonym")));
                   ("description", trimmed_or_null None); ("user_id", Some "")]))
    with (Answered Examples.session (Fulfilled (Ok Examples.big_small))) in Hcreated.
  change (answer Examples.accepting tt "http://localhost:8000" AsVoid "DELETE"
            ("/api/word-pairs/" +:+ "pair-1") None)
    with (Answered Examples.session (Fulfilled (Ok tt))) in Hdeleted.
  destruct Hcreated as (_ & Hcreated). destruct Hdeleted as (_ & _ & _ & Hdeleted).
  split; [| split].
  - rewrite Hdeleted; [reflexivity | simpl; lia].
  - by rewrite Hcreated.
  - destruct Hnonneg as (_ & _ & Hnonneg); [simpl; lia | exact Hnonneg].
Defined.

End WordPairsPagination.

(** * Further properties *)

(** ** Favorite words: removing, and the mirror against the table *)

Section FavoriteWordsMore.
Import FavoriteWords.

(** X1. When [removeFavorite] returns [true], no word with the same
    normalization is a favorite any more, every other entry of the mirror
    is still there in its place, and the error cell is as before; when it
    returns [false], the mirror is the one from before.  For an owner it
    returns [true] exactly when the store answers the delete without an
    error. *)
Theorem removeFavorite_forgets `{!Engine}
  {W} (remote : Remote favoritesE W) (w0 : W) (user : option User) (st : State)
  (w w' : string) :
  normalize w' = normalize w →
  let r := run remote (removeFavorite user st w) w0 in
  let st' := fst (returned r) in
  (if snd (returned r)
   then isFavorite st' w' = false ∧
        (∀ x, x ≠ normalize w → (x ∈ favorites st' ↔ x ∈ favorites st)) ∧
        favorites st' `sublist_of` favorites st ∧
        error st' = error st
   else favorites st' = favorites st) ∧
  ∀ u, user = Some u →
       snd (returned r)
       = match fst (remote _ (DeleteFavorite (user_id u) (normalize w)) w0) with
         | Fulfilled (mkReply _ None) => true
         | Fulfilled (mkReply _ (Some _)) | Rejected _ => false
         end.
Proof.
  intros Hnorm. split.
  - destruct user as [u |]; simpl; [| done].
    destruct (remote _ (DeleteFavorite (user_id u) (normalize w)) w0) as [[[d [e |]] | e] w1];
      simpl; try done.
    split_and!; [| | apply sublist_filter | done].
    + unfold isFavorite, includes. simpl. rewrite Hnorm.
      apply bool_decide_eq_false_2. rewrite list_elem_of_filter. tauto.
    + intros x Hx. rewrite list_elem_of_filter. tauto.
  - intros u ->. simpl.
    by destruct (remote _ (DeleteFavorite (user_id u) (normalize w)) w0)
      as [[[d [e |]] | e] w1].
Qed.

Lemma removeFavorite_forgets_witness :
  isFavorite
    (fst (returned (run store (removeFavorite (Some Examples.owner) Examples.apple_only "Apple")
                      Examples.two_owners)))
    " apple "
  = false.
Proof.
  assert (H := removeFavorite_forgets store Examples.two_owners (Some Examples.owner)
                 Examples.apple_only "Apple" " apple ").
  cbv zeta in H. destruct H as ((Hgone & _) & _).
  - reflexivity.
  - exact Hgone.
Defined.

(** X2. For a signed-in owner, [fetchFavorites] makes the mirror the words
    of the owner's rows, in the order of the table, and leaves the table
    alone; and once the mirror holds exactly the owner's words of the
    table, it still does so after [addFavorite] and after [removeFavorite]
    of any word. *)
Theorem favorites_mirror_follows_table `{!Engine}
  (db : Store) (u : User) (st0 st : State) (w : string) :
  auth_uid db = Some (user_id u) →
  agrees u st db →
  let fetched := run store (fetchFavorites (Some u) st0) db in
  let added := run store (addFavorite (Some u) st w) db in
  let removed := run store (removeFavorite (Some u) st w) db in
  favorites (returned fetched)
  = map snd (filter (fun row => fst row = user_id u) (favorite_words db)) ∧
  world fetched = db ∧
  agrees u (returned fetched) db ∧
  agrees u (fst (returned added)) (world added) ∧
  agrees u (fst (returned removed)) (world removed).
Proof.
  intros Hauth Hagree fetched added removed.
  assert (favorites (returned fetched)
          = map snd (filter (fun row => fst row = user_id u) (favorite_words db))) as Hfetched.
  { subst fetched. simpl. rewrite map_map. simpl. f_equal.
    apply list_filter_iff. intros row. unfold visible. rewrite Hauth.
    split; [tauto |]. intros Hrow. split; [by rewrite Hrow | done]. }
  split_and!; [done | done | | |].
  - intros x. rewrite Hfetched, list_elem_of_fmap. split.
    + intros ([uid y] & -> & [Hrow Hin]%list_elem_of_filter). simpl in *. by subst uid.
    + intros Hin. exists (user_id u, x). split; [done |].
      by apply list_elem_of_filter.
  - subst added. simpl. rewrite bool_decide_eq_true_2 by done.
    case_bool_decide as Hin; simpl; intros x;
      cbn [favorites setFavorites favorite_words].
    + rewrite elem_of_new_Set, elem_of_app, list_elem_of_singleton, (Hagree x).
      split; [| tauto]. intros [? | ->]; done.
    + rewrite elem_of_new_Set, !elem_of_cons, (Hagree x).
      split; intros [Hx | ?]; try tauto.
      * left. by rewrite Hx.
      * left. by injection Hx.
  - subst removed. simpl. intros x. cbn [favorites setFavorites favorite_words].
    rewrite !list_elem_of_filter, (Hagree x). unfold visible. simpl. rewrite Hauth.
    split.
    + intros [Hx Hin]. split; [| done]. intros [_ [= Heq]]. done.
    + intros [Hx Hin]. split; [| done]. intros ->. apply Hx. done.
Qed.

Lemma favorites_mirror_follows_table_witness :
  favorites (returned (run store (fetchFavorites (Some Examples.owner)
                                    (FavoriteWords.mkState [] false None))
                         Examples.two_owners))
  = ["apple"] ∧
  agrees Examples.owner
    (fst (returned (run store (addFavorite (Some Examples.owner) Examples.apple_only " Fig ")
                      Examples.two_owners)))
    (world (run store (addFavorite (Some Examples.owner) Examples.apple_only " Fig ")
              Examples.two_owners)).
Proof.
  assert (H := favorites_mirror_follows_table Examples.two_owners Examples.owner
                 (FavoriteWords.mkState [] false None) Examples.apple_only " Fig ").
  cbv zeta in H. destruct H as (Hfetched & _ & _ & Hadded & _).
  - reflexivity.
  - intros x. simpl. rewrite list_elem_of_singleton, !elem_of_cons, elem_of_nil.
    split.
    + intros ->. by left.
    + intros [[= ->] | [[=] | []]]. done.
  - split; [exact Hfetched | exact Hadded].
Defined.

End FavoriteWordsMore.

(** ** The heart button *)

Section ToggleFavorite.
Import FavoriteWords Pages.

Lemma handleToggleFavorite_store `{!Engine} (db : Store) (u : User) (st : State) (word : string) :
  auth_uid db = Some (user_id u) →
  let r := run store (handleToggleFavorite (Some u) st word) db in
  auth_uid (world r) = auth_uid db ∧
  length (calls r) = 1 ∧
  length (snd (returned r)) = 1 ∧
  ∀ x, x ∈ favorites (fst (returned r)) ↔
       if isFavorite st word
       then x ∈ favorites st ∧ x ≠ normalize word
       else x = normalize word ∨ x ∈ favorites st.
Proof.
  intros Hauth. unfold handleToggleFavorite.
  destruct (isFavorite st word) eqn:Hfav; rewrite run_bind; cbn zeta.
  - simpl. split_and!; try done.
    intros x. rewrite list_elem_of_filter. tauto.
  - destruct (addFavorite_store db u st word Hauth) as (Hok & Hauth' & _ & _ & Hel & _).
    set (r := run store (addFavorite (Some u) st word) db) in *.
    cbn [returned world calls run]. rewrite Hok.
    split_and!; try done.
    subst r. simpl. rewrite bool_decide_eq_true_2 by done. by case_bool_decide.
Qed.

(** X3. For a signed-in owner, a click on the heart of a word sends one
    request, shows one notification and flips whether the word is a
    favorite, leaving every word with another normalization as it was; a
    second click on the same heart, from the next render, brings every word
    back to where it was. *)
Theorem handleToggleFavorite_flips `{!Engine} (db : Store) (u : User) (st : State) (word : string) :
  auth_uid db = Some (user_id u) →
  let r := run store (handleToggleFavorite (Some u) st word) db in
  let st' := fst (returned r) in
  isFavorite st' word = negb (isFavorite st word) ∧
  (∀ w2, normalize w2 ≠ normalize word → isFavorite st' w2 = isFavorite st w2) ∧
  length (calls r) = 1 ∧
  length (snd (returned r)) = 1 ∧
  let twice := returned (run store (handleToggleFavorite_each (Some u) st [word; word]) db) in
  ∀ w2, isFavorite twice w2 = isFavorite st w2.
Proof.
  intros Hauth r st'.
  destruct (handleToggleFavorite_store db u st word Hauth) as (Hauth1 & Hcalls & Htoasts & Hel).
  fold r in Hauth1, Hcalls, Htoasts, Hel. fold st' in Hel.
  assert (isFavorite st' word = negb (isFavorite st word)) as Hflip.
  { unfold isFavorite at 1. unfold includes.
    destruct (isFavorite st word) eqn:Hfav; simpl.
    - apply bool_decide_eq_false_2. rewrite Hel. tauto.
    - apply bool_decide_eq_true_2. rewrite Hel. by left. }
  split_and!; try done.
  - intros w2 Hw2. unfold isFavorite, includes. apply bool_decide_ext.
    rewrite Hel. destruct (isFavorite st word); [tauto |].
    split; [| tauto]. intros [? | ?]; done.
  - intros twice w2. subst twice.
    cbn [handleToggleFavorite_each]. rewrite run_bind. cbn zeta. fold r.
    rewrite run_bind. cbn zeta. cbn [returned run].
    assert (auth_uid (world r) = Some (user_id u)) as Hauth2 by congruence.
    destruct (handleToggleFavorite_store (world r) u st' word Hauth2) as (_ & _ & _ & Hel2).
    fold st'. fold st' in Hel2.
    assert (∀ x, x ∈ favorites
                   (fst (returned (run store (handleToggleFavorite (Some u) st' word)
                                     (world r))))
                 ↔ x ∈ favorites st) as Hback.
    { intros x. rewrite Hel2, Hflip.
      destruct (isFavorite st word) eqn:Hfav; simpl; rewrite Hel.
      - unfold isFavorite, includes in Hfav. apply bool_decide_eq_true_1 in Hfav.
        split; [intros [-> | ?]; tauto |].
        intros Hin. destruct (decide (x = normalize word)); tauto.
      - unfold isFavorite, includes in Hfav. apply bool_decide_eq_false_1 in Hfav.
        split; [tauto |]. intros Hin. split; [tauto |]. intros ->. done. }
    unfold isFavorite, includes. apply bool_decide_ext, Hback.
Qed.

Lemma handleToggleFavorite_flips_witness :
  isFavorite
    (fst (returned (run store (handleToggleFavorite (Some Examples.owner) Examples.apple_only
                                 " APPLE") Examples.two_owners)))
    " APPLE"
  = false.
Proof.
  assert (H := handleToggleFavorite_flips Examples.two_owners Examples.owner
                 Examples.apple_only " APPLE").
  cbv zeta in H. destruct H as (Hflip & _).
  - reflexivity.
  - exact Hflip.
Defined.

End ToggleFavorite.

(** ** Progress: the map of the mirror and the tally of answers *)

Section ProgressMore.
Import Flashcards.

(** X4. The progress mirror that [fetchProgress] builds from the rows keeps,
    for every card, the last row of that card, and nothing for a card
    without rows. *)
Theorem progressMap_keeps_last_row (rows : list FlashcardProgress.t) (c : string) :
  progressMap rows !! c = last (filter (fun p => FlashcardProgress.card_id p = c) rows) ∧
  (progressMap rows !! c = None ↔ c ∉ map FlashcardProgress.card_id rows).
Proof.
  assert (progressMap rows !! c
          = last (filter (fun p => FlashcardProgress.card_id p = c) rows)) as Hlast.
  { induction rows as [| p rows IH] using rev_ind; [done |].
    unfold progressMap in *. rewrite fold_left_app, filter_app. simpl.
    destruct (decide (FlashcardProgress.card_id p = c)) as [<- | Hne].
    - rewrite lookup_insert_eq, filter_cons_True, filter_nil by done.
      by rewrite last_snoc.
    - rewrite lookup_insert_ne, filter_cons_False, filter_nil, app_nil_r by done.
      exact IH. }
  split; [done |]. rewrite Hlast, last_None. split.
  - intros Hnil (p & -> & Hp)%list_elem_of_fmap.
    by eapply (filter_nil_not_elem_of _ _ p Hnil).
  - intros Hc. apply filter_none. intros p Hp <-. apply Hc. by apply list_elem_of_fmap_2.
Qed.

(** X5. When the progress table already holds a row of the owner for the
    card but the mirror does not know it, [recordProgress] sends an insert
    that the unique constraint refuses: the call returns [false], nothing
    is fetched again, and mirror and table are as before, so that the
    answer is not counted. *)
Theorem recordProgress_unknown_row_is_lost
  (db : ProgressStore.t) (u : User) (st : State) (now : Clock)
  (cardId deckId : string) (correct : bool) :
  ProgressStore.auth_uid db = Some (user_id u) →
  progress st !! cardId = None →
  Exists (fun row => ProgressStore.user_id row = user_id u ∧ ProgressStore.card_id row = cardId)
    (ProgressStore.flashcard_progress db) →
  run ProgressStore.store (recordProgress (Some u) st now cardId deckId correct) db
  = mkRun (st, false) db
      [call (InsertProgress (user_id u) cardId deckId
               (if correct then 1 else 0) (if correct then 0 else 1) (now 0))].
Proof.
  intros Hauth Hnone Hrow. unfold recordProgress. rewrite Hnone. cbn [run ProgressStore.store].
  rewrite !bool_decide_eq_true_2 by done. reflexivity.
Qed.

Lemma recordProgress_again_table (db : ProgressStore.t) (u : User) (st : State) (now : Clock)
  (cardId deckId : string) (correct : bool)
  (rows : list ProgressStore.Row) (row : ProgressStore.Row) :
  ProgressStore.auth_uid db = Some (user_id u) →
  ProgressStore.flashcard_progress db = rows ++ [row] →
  ProgressStore.user_id row = user_id u →
  ProgressStore.card_id row = cardId →
  ProgressStore.deck_id row = deckId →
  progress st !! cardId = Some (ProgressStore.select_star row) →
  let r := run ProgressStore.store (recordProgress (Some u) st now cardId deckId correct) db in
  let row' :=
    ProgressStore.set_counts
      (ProgressStore.correct_count row + (if correct then 1 else 0))
      (ProgressStore.incorrect_count row + (if correct then 0 else 1)) (now 0) row in
  snd (returned r) = true ∧
  ProgressStore.auth_uid (world r) = ProgressStore.auth_uid db ∧
  (∃ rows', ProgressStore.flashcard_progress (world r) = rows' ++ [row']) ∧
  progress (fst (returned r)) !! cardId = Some (ProgressStore.select_star row').
Proof.
  intros Hauth Hrows Huser Hcard Hdeck Hsome. unfold recordProgress. rewrite Hsome.
  cbn. rewrite Hrows. rewrite map_app. cbn [map].
  rewrite (bool_decide_eq_true_2 (ProgressStore.visible db row ∧ _))
    by (split; [unfold ProgressStore.visible; congruence | done]).
  split_and!; [done | done | by eexists |].
  rewrite filter_app, filter_cons_True, filter_nil.
  2:{ unfold ProgressStore.visible. cbn. split_and!; congruence. }
  rewrite map_app. cbn [map]. rewrite fold_left_app.
  unfold ProgressStore.select_star at 2, ProgressStore.set_counts. cbn.
  rewrite Hcard. apply lookup_insert_eq.
Qed.

Lemma tally_cons (b : bool) (now : Clock) (correct : bool) (answers : list (Clock * bool)) :
  tally b ((now, correct) :: answers)
  = ((if bool_decide (correct = b) then 1 else 0) + tally b answers)%Z.
Proof.
  unfold tally. rewrite filter_cons. simpl.
  case_bool_decide; [rewrite decide_True by done | rewrite decide_False by done];
    simpl length; lia.
Qed.

Lemma recordProgress_each_table (u : User) (cardId deckId : string)
  (answers : list (Clock * bool)) :
  ∀ (db : ProgressStore.t) (st : State) (rows : list ProgressStore.Row)
    (row : ProgressStore.Row),
  ProgressStore.auth_uid db = Some (user_id u) →
  ProgressStore.flashcard_progress db = rows ++ [row] →
  ProgressStore.user_id row = user_id u →
  ProgressStore.card_id row = cardId →
  ProgressStore.deck_id row = deckId →
  progress st !! cardId = Some (ProgressStore.select_star row) →
  let r := run ProgressStore.store
             (Study.recordProgress_each (Some u) st answers cardId deckId) db in
  snd (returned r) = true ∧
  ∃ p, progress (fst (returned r)) !! cardId = Some p ∧
       FlashcardProgress.correct_count p
       = (ProgressStore.correct_count row + tally true answers)%Z ∧
       FlashcardProgress.incorrect_count p
       = (ProgressStore.incorrect_count row + tally false answers)%Z.
Proof.
  induction answers as [| [now correct] answers IH];
    intros db st rows row Hauth Hrows Huser Hcard Hdeck Hsome.
  - simpl. split; [done |]. eexists. split; [exact Hsome |].
    unfold tally. simpl. split; lia.
  - cbn [Study.recordProgress_each]. rewrite run_bind. cbn zeta.
    destruct (recordProgress_again_table db u st now cardId deckId correct rows row
                Hauth Hrows Huser Hcard Hdeck Hsome) as (Hok & Hauth' & [rows' Hrows'] & Hsome').
    set (r1 := run ProgressStore.store (recordProgress (Some u) st now cardId deckId correct) db)
      in *.
    rewrite run_bind. cbn zeta. cbn [returned run].
    rewrite Hauth in Hauth'.
    destruct (IH (world r1) (fst (returned r1)) rows' _ Hauth' Hrows' Huser Hcard Hdeck Hsome')
      as (Hok' & p & Hp & Hc & Hi).
    rewrite Hok, Hok'. split; [done |].
    exists p. split; [done |]. rewrite Hc, Hi, !tally_cons. simpl.
    destruct correct; simpl; split; lia.
Qed.

(** X6. Starting with no record of the card in mirror or table, any
    non-empty run of answers recorded one call after the other by a
    signed-in owner succeeds throughout, and leaves in the mirror a record
    whose [correct_count] is the number of correct answers and whose
    [incorrect_count] is the number of wrong ones. *)
Theorem recordProgress_each_tallies
  (db : ProgressStore.t) (u : User) (st : State) (cardId deckId : string)
  (first : Clock * bool) (answers : list (Clock * bool)) :
  ProgressStore.auth_uid db = Some (user_id u) →
  progress st !! cardId = None →
  ¬ Exists (fun row => ProgressStore.user_id row = user_id u ∧ ProgressStore.card_id row = cardId)
      (ProgressStore.flashcard_progress db) →
  let r := run ProgressStore.store
             (Study.recordProgress_each (Some u) st (first :: answers) cardId deckId) db in
  snd (returned r) = true ∧
  ∃ p, progress (fst (returned r)) !! cardId = Some p ∧
       FlashcardProgress.correct_count p = tally true (first :: answers) ∧
       FlashcardProgress.incorrect_count p = tally false (first :: answers).
Proof.
  intros Hauth Hnone Hfree. destruct first as [now correct].
  cbn [Study.recordProgress_each]. rewrite run_bind. cbn zeta.
  destruct (recordProgress_first db u st now cardId deckId correct Hauth Hnone Hfree)
    as (Hok & Hauth' & Hrows & Hsome).
  set (r1 := run ProgressStore.store (recordProgress (Some u) st now cardId deckId correct) db)
    in *.
  rewrite run_bind. cbn zeta. cbn [returned run].
  rewrite Hauth in Hauth'.
  destruct (recordProgress_each_table u cardId deckId answers (world r1) (fst (returned r1))
              _ _ Hauth' Hrows eq_refl eq_refl eq_refl Hsome) as (Hok' & p & Hp & Hc & Hi).
  rewrite Hok, Hok'. split; [done |].
  exists p. split; [done |]. rewrite Hc, Hi, !tally_cons. simpl.
  destruct correct; simpl; split; lia.
Qed.

Lemma recordProgress_unknown_row_is_lost_witness :
  returned (run ProgressStore.store
              (recordProgress (Some Examples.owner) Examples.studying Examples.morning
                 "card-1" "deck-1" true)
              Examples.known_progress)
  = (Examples.studying, false).
Proof.
  assert (H := recordProgress_unknown_row_is_lost Examples.known_progress Examples.owner
                 Examples.studying Examples.morning "card-1" "deck-1" true).
  rewrite H.
  - reflexivity.
  - reflexivity.
  - apply lookup_empty.
  - apply Exists_cons_hd. split; reflexivity.
Defined.

Lemma recordProgress_each_tallies_witness :
  ∃ p,
    progress
      (fst (returned
              (run ProgressStore.store
                 (Study.recordProgress_each (Some Examples.owner) Examples.studying
                    [(Examples.morning, true); (Examples.morning, false);
                     (Examples.evening, true)]
                    "card-1" "deck-1")
                 Examples.no_progress)))
    !! "card-1" = Some p ∧
    FlashcardProgress.correct_count p = 2%Z ∧
    FlashcardProgress.incorrect_count p = 1%Z.
Proof.
  assert (H := recordProgress_each_tallies Examples.no_progress Examples.owner
                 Examples.studying "card-1" "deck-1" (Examples.morning, true)
                 [(Examples.morning, false); (Examples.evening, true)]).
  cbv zeta in H. destruct H as (_ & p & Hp & Hc & Hi).
  - reflexivity.
  - apply lookup_empty.
  - intros Hex. inversion Hex.
  - exists p. split; [exact Hp |]. split; [exact Hc | exact Hi].
Defined.

(** X20. The update of [recordProgress] writes counts computed from the
    mirror: every row of the table with the id of the mirrored record that
    the session may update gets the mirrored counts with the answer added
    and the time of the call, whatever counts it held; the call returns
    [true]. *)
Theorem recordProgress_writes_mirrored_counts
  (db : ProgressStore.t) (u : User) (st : State) (now : Clock)
  (cardId deckId : string) (correct : bool)
  (existing : FlashcardProgress.t) (row : ProgressStore.Row) :
  progress st !! cardId = Some existing →
  row ∈ ProgressStore.flashcard_progress db →
  ProgressStore.auth_uid db = Some (ProgressStore.user_id row) →
  ProgressStore.id row = FlashcardProgress.id existing →
  let r := run ProgressStore.store (recordProgress (Some u) st now cardId deckId correct) db in
  snd (returned r) = true ∧
  ProgressStore.set_counts
    (FlashcardProgress.correct_count existing + (if correct then 1 else 0))
    (FlashcardProgress.incorrect_count existing + (if correct then 0 else 1))
    (now 0) row
  ∈ ProgressStore.flashcard_progress (world r) ∧
  length (ProgressStore.flashcard_progress (world r))
  = length (ProgressStore.flashcard_progress db).
Proof.
  intros Hsome Hrow Hauth Hid. unfold recordProgress. rewrite Hsome. cbn.
  split_and!; [done | | apply length_map].
  apply list_elem_of_fmap.
  exists row. split; [| done].
  by rewrite bool_decide_eq_true_2.
Qed.

Lemma recordProgress_writes_mirrored_counts_witness :
  ProgressStore.mkRow "progress-1" "owner-1" "card-1" "deck-1" 2 0
    (Some "2026-02-06T09:00:00Z")
  ∈ ProgressStore.flashcard_progress
      (world (run ProgressStore.store
                (recordProgress (Some Examples.owner)
                   (setProgress
                      {[ "card-1" := FlashcardProgress.mk "progress-1" "card-1" 1 0 None ]}
                      Examples.studying)
                   Examples.morning "card-1" "deck-1" true)
                Examples.known_progress)).
Proof.
  assert (H := recordProgress_writes_mirrored_counts Examples.known_progress Examples.owner
                 (setProgress
                    {[ "card-1" := FlashcardProgress.mk "progress-1" "card-1" 1 0 None ]}
                    Examples.studying)
                 Examples.morning "card-1" "deck-1" true
                 (FlashcardProgress.mk "progress-1" "card-1" 1 0 None)
                 (ProgressStore.mkRow "progress-1" "owner-1" "card-1" "deck-1" 3 1
                    (Some "2026-02-05T20:00:00Z"))).
  cbv zeta in H. destruct H as (_ & Hin & _).
  - apply lookup_singleton_eq.
  - left.
  - reflexivity.
  - reflexivity.
  - exact Hin.
Defined.

End ProgressMore.

(** ** Flashcards: what deleting leaves alone *)

Section DeleteFrame.
Import Flashcards.

(** X7. [deleteDeck] and [deleteCard] touch one list only.  When
    [deleteDeck] returns [true], the decks mirror has lost exactly the
    decks with that id, the others keeping their order, while the cards
    and progress mirrors are as before, whatever the store cascaded; when
    it returns [false], all three mirrors are as before.  The same holds
    for [deleteCard] and the cards mirror: decks (with their card counts)
    and progress stay. *)
Theorem delete_touches_one_list
  {W1 W2} (decksR : Remote decksE W1) (w1 : W1) (cardsR : Remote cardsE W2) (w2 : W2)
  (user : option User) (st : State) (deckId cardId : string) :
  let rd := returned (run decksR (deleteDeck user st deckId) w1) in
  let rc := returned (run cardsR (deleteCard user st cardId) w2) in
  (cards (fst rd) = cards st ∧ progress (fst rd) = progress st ∧
   if snd rd
   then (∀ d, d ∈ decks (fst rd) ↔ d ∈ decks st ∧ FlashcardDeck.id d ≠ deckId) ∧
        decks (fst rd) `sublist_of` decks st
   else decks (fst rd) = decks st) ∧
  (decks (fst rc) = decks st ∧ progress (fst rc) = progress st ∧
   if snd rc
   then (∀ c, c ∈ cards (fst rc) ↔ c ∈ cards st ∧ FlashcardCard.id c ≠ cardId) ∧
        cards (fst rc) `sublist_of` cards st
   else cards (fst rc) = cards st).
Proof.
  split.
  - destruct user as [u |]; simpl; [| done].
    destruct (decksR _ GetSession w1) as [[s | e] w]; simpl; [| done].
    destruct (decksR _ (DeleteDeck deckId) w) as [[[d [e |]] | e] w']; simpl; try done.
    destruct d as [[| row rows] |]; simpl; try done.
    split_and!; [done | done | | apply sublist_filter].
    intros d. rewrite list_elem_of_filter. tauto.
  - simpl.
    destruct (cardsR _ (DeleteCard cardId) w2) as [[[d [e |]] | e] w]; simpl; try done.
    split_and!; [done | done | | apply sublist_filter].
    intros c. rewrite list_elem_of_filter. tauto.
Qed.

Lemma length_without_one (l : list FlashcardCard.t) (victim : FlashcardCard.t) :
  NoDup (map FlashcardCard.id l) →
  victim ∈ l →
  length (filter (fun c => FlashcardCard.id c ≠ FlashcardCard.id victim) l)
  = length l - 1.
Proof.
  induction l as [| x l IH]; intros Hnd Hin; [by apply elem_of_nil in Hin |].
  simpl in Hnd. apply NoDup_cons in Hnd as [Hx Hnd].
  destruct (decide (FlashcardCard.id x = FlashcardCard.id victim)) as [Heq | Hne].
  - rewrite filter_cons_False by (intros Hne; done).
    rewrite filter_all; [simpl; lia |].
    intros c Hc Hid. apply Hx. rewrite Heq, <- Hid. by apply list_elem_of_fmap_2.
  - rewrite filter_cons_True by done.
    apply elem_of_cons in Hin as [-> | Hin]; [done |].
    simpl. rewrite IH by done.
    assert (0 < length l) by (destruct l; [by apply elem_of_nil in Hin | simpl; lia]).
    lia.
Qed.

(** X8. After a card of the mirror has been deleted, the next [addCard]
    sends the [order_index] that is one less than the length of the mirror
    before the deletion; a card that held this index and was not the one
    deleted is still in the mirror, so that two cards of the deck then share
    the index. *)
Theorem addCard_after_deleteCard_reuses_index
  {W} (cardsR : Remote cardsE W) (w0 w1 : W) (user : option User) (st : State)
  (victim : FlashcardCard.t) (deckId front back : string) :
  NoDup (map FlashcardCard.id (cards st)) →
  victim ∈ cards st →
  snd (returned (run cardsR (deleteCard user st (FlashcardCard.id victim)) w0)) = true →
  let st1 := fst (returned (run cardsR (deleteCard user st (FlashcardCard.id victim)) w0)) in
  calls (run cardsR (addCard user st1 deckId front back) w1)
  = [call (InsertCard deckId front back (Z.of_nat (length (cards st)) - 1))] ∧
  ∀ c, c ∈ cards st → c ≠ victim →
       FlashcardCard.order_index c = (Z.of_nat (length (cards st)) - 1)%Z →
       c ∈ cards st1.
Proof.
  intros Hnd Hin Hok st1.
  assert (cards st1
          = filter (fun c => FlashcardCard.id c ≠ FlashcardCard.id victim) (cards st)) as Hst1.
  { subst st1. simpl in *.
    destruct (cardsR _ (DeleteCard (FlashcardCard.id victim)) w0) as [[[d [e |]] | e] w];
      simpl in *; done. }
  split.
  - simpl. rewrite Hst1, length_without_one by done.
    assert (0 < length (cards st))
      by (destruct (cards st); [by apply elem_of_nil in Hin | simpl; lia]).
    replace (Z.of_nat (length (cards st) - 1)) with (Z.of_nat (length (cards st)) - 1)%Z
      by lia.
    by destruct (cardsR _ _ w1).
  - intros c Hc Hne _. rewrite Hst1. apply list_elem_of_filter. split; [| done].
    intros Hid. apply Hne.
    apply (NoDup_fmap_1 FlashcardCard.id) in Hnd as Hnd'.
    apply list_elem_of_lookup in Hc as [i Hi]. apply list_elem_of_lookup in Hin as [j Hj].
    assert (i = j) as ->.
    { eapply (NoDup_lookup _ _ _ (FlashcardCard.id c) Hnd).
      - by rewrite list_lookup_fmap, Hi.
      - by rewrite list_lookup_fmap, Hj, Hid. }
    congruence.
Qed.

Lemma addCard_after_deleteCard_reuses_index_witness :
  calls (run CardStore.store
           (addCard None
              (fst (returned (run CardStore.store
                                (deleteCard None Examples.studying "card-1")
                                Examples.signed_in)))
              "deck-1" "adios" "goodbye")
           Examples.signed_in)
  = [call (InsertCard "deck-1" "adios" "goodbye" 0)].
Proof.
  assert (H := addCard_after_deleteCard_reuses_index CardStore.store
                 Examples.signed_in Examples.signed_in None Examples.studying
                 Examples.hola "deck-1" "adios" "goodbye").
  cbv zeta in H. destruct H as (Hcalls & _).
  - apply NoDup_singleton.
  - left.
  - reflexivity.
  - exact Hcalls.
Defined.

End DeleteFrame.

(** ** Flashcards against the cards table *)

Section CardsTable.
Import Flashcards.

Lemma insert_by_order_index_perm (c : FlashcardCard.t) (l : list FlashcardCard.t) :
  CardStore.insert_by_order_index c l ≡ₚ c :: l.
Proof.
  induction l as [| d l IH]; simpl; [done |].
  destruct (FlashcardCard.order_index c <? FlashcardCard.order_index d)%Z; [done |].
  rewrite IH. apply Permutation_swap.
Qed.

Lemma order_by_order_index_perm (l : list FlashcardCard.t) :
  CardStore.order_by_order_index l ≡ₚ l.
Proof.
  induction l as [| c l IH]; simpl; [done |].
  rewrite insert_by_order_index_perm. by rewrite IH.
Qed.

Lemma insert_by_order_index_sorted (c : FlashcardCard.t) (l : list FlashcardCard.t) :
  by_order_index l → by_order_index (CardStore.insert_by_order_index c l).
Proof.
  unfold by_order_index. induction 1 as [| d l Hsorted IH Hd]; simpl.
  - repeat constructor.
  - destruct (Z.ltb_spec (FlashcardCard.order_index c) (FlashcardCard.order_index d))
      as [Hlt | Hge].
    + constructor; [by constructor |]. constructor; [lia |].
      eapply Forall_impl; [exact Hd |]. simpl. intros e He. lia.
    + constructor; [done |]. rewrite insert_by_order_index_perm. by constructor.
Qed.

Lemma order_by_order_index_sorted (l : list FlashcardCard.t) :
  by_order_index (CardStore.order_by_order_index l).
Proof.
  induction l as [| c l IH]; simpl; [constructor |].
  by apply insert_by_order_index_sorted.
Qed.

(** X9. Against the cards table, [fetchCards] leaves in the mirror exactly
    the cards of the deck that the session may see, each once as in the
    table, in ascending [order_index]; it ends with [loading] false and no
    error, and does not change the table. *)
Theorem fetchCards_sorted_deck
  (db : CardStore.t) (user : option User) (st : State) (deckId : string) :
  let r := run CardStore.store (fetchCards user st deckId) db in
  let st' := returned r in
  by_order_index (cards st') ∧
  cards st' ≡ₚ filter (fun row => FlashcardCard.deck_id row ∈ CardStore.owned_decks db
                                  ∧ FlashcardCard.deck_id row = deckId)
                 (CardStore.flashcard_cards db) ∧
  (∀ c, c ∈ cards st' → FlashcardCard.deck_id c = deckId) ∧
  loading st' = false ∧ error st' = None ∧ world r = db.
Proof.
  simpl. split_and!; try done.
  - apply order_by_order_index_sorted.
  - apply order_by_order_index_perm.
  - intros c. rewrite order_by_order_index_perm, list_elem_of_filter. tauto.
Qed.



(** X11. Against the cards table, a successful [updateCard] returns the
    row of that id with the new front and back and the time of the call as
    [updated_at], its deck, position and creation time being those of the
    row in the table; the ids of the mirror are the same as before, in the
    same order.  When it fails, mirror and table are as they were. *)
Theorem updateCard_keeps_identity
  (db : CardStore.t) (user : option User) (st : State) (now : Clock)
  (cardId front back : string) :
  let r := run CardStore.store (updateCard user st now cardId front back) db in
  match snd (returned r) with
  | Some data =>
      FlashcardCard.id data = cardId ∧
      FlashcardCard.front data = front ∧ FlashcardCard.back data = back ∧
      FlashcardCard.updated_at data = now 0 ∧
      (∃ row, row ∈ CardStore.flashcard_cards db ∧
              FlashcardCard.id row = cardId ∧
              FlashcardCard.deck_id data = FlashcardCard.deck_id row ∧
              FlashcardCard.order_index data = FlashcardCard.order_index row ∧
              FlashcardCard.created_at data = FlashcardCard.created_at row) ∧
      map FlashcardCard.id (cards (fst (returned r))) = map FlashcardCard.id (cards st)
  | None =>
      cards (fst (returned r)) = cards st ∧
      CardStore.flashcard_cards (world r) = CardStore.flashcard_cards db
  end.
Proof.
  simpl.
  destruct (filter _ (CardStore.flashcard_cards db)) as [| row [| row2 rows]] eqn:Hrows;
    simpl; try done.
  assert (row ∈ filter (fun row => CardStore.visible db row ∧ FlashcardCard.id row = cardId)
            (CardStore.flashcard_cards db)) as Hrow by (rewrite Hrows; left).
  apply list_elem_of_filter in Hrow as [[_ Hid] Hin].
  split_and!; try done.
  - exists row. by split_and!.
  - rewrite map_map. apply map_ext_in. intros c _. simpl.
    case_bool_decide as Hc; [| done]. simpl. congruence.
Qed.

End CardsTable.

(** ** The flashcards page: moving through the cards *)

Section CardNavigation.
Import Pages.

Lemma move_stays (n : nat) (i : Z) (m : Move) :
  (0 ≤ i ≤ Z.max 0 (Z.of_nat n - 1))%Z →
  (0 ≤ move n i m ≤ Z.max 0 (Z.of_nat n - 1))%Z.
Proof.
  intros Hi. destruct m as [| | key | index]; simpl;
    unfold handleKeyDown, handleNextCard, handlePreviousCard;
    repeat case_bool_decide;
    repeat match goal with |- context [(?a <? ?b)%Z] => destruct (Z.ltb_spec a b) end;
    lia.
Qed.

(** X12. Whatever the user does to move through [n] cards (the two
    buttons, any keys, the dots of the cards), the index of the current
    card stays between 0 and [n - 1] (0 when there is no card): "next" on
    the last card and "previous" on the first one change nothing, and a key
    other than the two arrows changes nothing. *)
Theorem moves_stay_on_a_card (n : nat) (moves : list Move) (i : Z) (key : string) :
  (0 ≤ i ≤ Z.max 0 (Z.of_nat n - 1))%Z →
  (0 ≤ fold_left (move n) moves i ≤ Z.max 0 (Z.of_nat n - 1))%Z ∧
  handleNextCard (Z.of_nat n) (Z.max 0 (Z.of_nat n - 1)) = Z.max 0 (Z.of_nat n - 1) ∧
  handlePreviousCard 0 = 0%Z ∧
  (key ≠ "ArrowRight" → key ≠ "ArrowLeft" → handleKeyDown (Z.of_nat n) i key = i).
Proof.
  intros Hi. split; [| split; [| split]].
  - revert i Hi. induction moves as [| m moves IH]; intros i Hi; cbn [fold_left];
      [exact Hi |].
    apply IH. by apply move_stays.
  - unfold handleNextCard.
    destruct (Z.ltb_spec (Z.max 0 (Z.of_nat n - 1)) (Z.of_nat n - 1)); lia.
  - reflexivity.
  - intros Hr Hl. unfold handleKeyDown. rewrite !bool_decide_eq_false_2 by done.
    reflexivity.
Qed.

Lemma moves_stay_on_a_card_witness :
  fold_left (move 3) [ClickNext; KeyDown "ArrowRight"; ClickNext; KeyDown "a"; ClickPrevious] 0%Z
  = 1%Z.
Proof.
  assert (H := moves_stay_on_a_card 3
                 [ClickNext; KeyDown "ArrowRight"; ClickNext; KeyDown "a"; ClickPrevious]
                 0%Z "a").
  destruct H as (_ & _ & _ & _).
  - simpl. lia.
  - reflexivity.
Defined.

End CardNavigation.

(** ** The phrase page: saving the words as cards *)

Section SaveWords.
Import Flashcards Pages.

Lemma saveWords_loop_calls
  {W} (cardsR : Remote cardsE W) (user : option User) (st : State) (deckId : string)
  (words : list Word) :
  ∀ (live : State) (successCount : nat) (w0 : W),
  let r := run cardsR (saveWords_loop user st live deckId words successCount) w0 in
  calls r
  = map (fun w => call (InsertCard deckId (word w) "" (Z.of_nat (length (cards st))))) words ∧
  (cards (fst (returned r)) = cards live ∨
   ∃ c, cards (fst (returned r)) = cards st ++ [c]) ∧
  decks (fst (returned r)) = decks live ∧
  (snd (returned r) ≤ successCount + length words)%nat.
Proof.
  induction words as [| w words IH]; intros live successCount w0.
  - simpl. split_and!; [done | by left | done | lia].
  - cbn [saveWords_loop]. rewrite run_bind. cbn zeta.
    set (r1 := run cardsR (addCard user st deckId (word w) "") w0).
    destruct (IH (addCard_writes (returned r1) live)
                (match snd (returned r1) with Some _ => S successCount | None => successCount end)
                (world r1)) as (Hcalls & Hcards & Hdecks & Hcount).
    cbn [calls returned map]. rewrite Hcalls.
    assert (calls r1
            = [call (InsertCard deckId (word w) "" (Z.of_nat (length (cards st))))]
            ∧ (cards (addCard_writes (returned r1) live) = cards live
               ∨ ∃ c, cards (addCard_writes (returned r1) live) = cards st ++ [c])
            ∧ decks (addCard_writes (returned r1) live) = decks live) as (Hc1 & Hw & Hd).
    { subst r1. simpl.
      destruct (cardsR _ (InsertCard deckId (word w) "" (Z.of_nat (length (cards st)))) w0)
        as [[[data | e] | e] w1]; simpl; split_and!; eauto. }
    rewrite Hc1. split_and!; [done | | congruence |].
    + destruct Hcards as [Hsame | Hone]; [| by right].
      rewrite Hsame. exact Hw.
    + simpl. destruct (snd (returned r1)); simpl in *; lia.
Qed.

(** X13. [handleSaveWordsAsCards] calls, for every word, the [addCard] of
    one and the same render.  So every insert carries the same
    [order_index], the length of the cards mirror when the handler started,
    and the mirror ends up as it was or with one card more, however many
    cards were created; the handler always ends with [savingWords] off. *)
Theorem handleSaveWordsAsCards_one_index
  {W} (cardsR : Remote cardsE W) (w0 : W) (user : option User) (st : State)
  (page : PhrasePage) (deckId : string) (words : list Word) :
  selectedDeckId page = Some deckId →
  deckId ≠ "" →
  words ≠ [] →
  let r := run cardsR (handleSaveWordsAsCards user st page words) w0 in
  let live := fst (fst (returned r)) in
  calls r
  = map (fun w => call (InsertCard deckId (word w) "" (Z.of_nat (length (cards st))))) words ∧
  (cards live = cards st ∨ ∃ c, cards live = cards st ++ [c]) ∧
  savingWords (snd (fst (returned r))) = false ∧
  length (snd (returned r)) = 1.
Proof.
  intros Hdeck Hne Hwords. unfold handleSaveWordsAsCards. rewrite Hdeck. simpl no_deck.
  rewrite bool_decide_eq_false_2 by done.
  rewrite bool_decide_eq_false_2 by (by destruct words). simpl orb. cbv iota.
  rewrite run_bind. cbn zeta.
  destruct (saveWords_loop_calls cardsR user st deckId words st 0 w0)
    as (Hcalls & Hcards & _ & _).
  set (r1 := run cardsR (saveWords_loop user st st deckId words 0) w0) in *.
  case_bool_decide; cbn [run calls returned fst snd savingWords length];
    rewrite app_nil_r; done.
Qed.

Lemma handleSaveWordsAsCards_one_index_witness :
  calls (run CardStore.store
           (handleSaveWordsAsCards None Examples.studying (mkPhrasePage (Some "deck-1") false false)
              [mkWord "sol"; mkWord "luna"])
           Examples.signed_in)
  = [call (InsertCard "deck-1" "sol" "" 1); call (InsertCard "deck-1" "luna" "" 1)].
Proof.
  assert (H := handleSaveWordsAsCards_one_index CardStore.store Examples.signed_in None
                 Examples.studying (mkPhrasePage (Some "deck-1") false false) "deck-1"
                 [mkWord "sol"; mkWord "luna"]).
  cbv zeta in H. destruct H as (Hcalls & _).
  - reflexivity.
  - discriminate.
  - discriminate.
  - exact Hcalls.
Defined.

End SaveWords.

(** ** Word pairs: without a session, paging, and the form *)

Section WordPairsMore.
Import WordPairs WordPairsPaging Pages.

(** X14. With nobody signed in, each of the four word-pair operations only
    looks up the session: nothing is sent to the service, the pairs and the
    pagination record are as before, [loading] ends up false and the error
    is "User must be authenticated"; create, update and delete also throw
    that error. *)
Theorem word_pairs_need_a_session `{!Engine}
  (url : string) {W} (remote : Remote httpE W) (w0 : W) (st : State)
  (page limit : option Z) (word1 word2 pairId : string)
  (pairType description : option string) (updates : Updates) :
  fst (remote _ GetSession w0) = Fulfilled None →
  let refused := mkState (pairs st) false (Some "User must be authenticated") (pagination st) in
  let unauthenticated {T} : Outcome T := Rejected (new_Error "User must be authenticated") in
  let fetched := run remote (fetchWordPairs url st page limit) w0 in
  let created := run remote (createWordPair url st word1 word2 pairType description) w0 in
  let updated := run remote (updateWordPair url st pairId updates) w0 in
  let deleted := run remote (deleteWordPair url st pairId) w0 in
  (returned fetched = refused ∧ calls fetched = [call GetSession]) ∧
  (returned created = (refused, unauthenticated) ∧ calls created = [call GetSession]) ∧
  (returned updated = (refused, unauthenticated) ∧ calls updated = [call GetSession]) ∧
  (returned deleted = (refused, unauthenticated) ∧ calls deleted = [call GetSession]).
Proof.
  intros Hnone. cbv zeta.
  unfold fetchWordPairs, createWordPair, updateWordPair, deleteWordPair.
  rewrite !run_bind. cbv zeta.
  rewrite !(request_without_session url remote w0 _ _ _ _ Hnone).
  done.
Qed.

Lemma word_pairs_need_a_session_witness :
  returned (run Examples.signed_out
              (deleteWordPair "http://localhost:8000" Examples.second_page "pair-1") tt)
  = (mkState [Examples.big_small] false (Some "User must be authenticated")
       (mkPagination 2 20 45),
     Rejected (new_Error "User must be authenticated")).
Proof.
  assert (H := word_pairs_need_a_session "http://localhost:8000" Examples.signed_out tt
                 Examples.second_page None None "big" "small" "pair-1" None None
                 (mkUpdates None None None None)).
  cbv zeta in H. destruct H as (_ & _ & _ & Hdeleted & _).
  - reflexivity.
  - exact Hdeleted.
Defined.

Lemma hasNextPage_compares (st : State) :
  let p := pagination st in
  hasNextPage st
  = (if 0 <? p_limit p then p_page p * p_limit p <? total p
     else if p_limit p =? 0 then 0 <? total p
     else total p <? p_page p * p_limit p)%Z.
Proof.
  unfold hasNextPage, maxPage, ceil_div.
  destruct (pagination st) as [page limit tot]. cbn [p_page p_limit total].
  destruct (Z.ltb_spec 0 limit) as [Hpos | Hnonpos].
  - rewrite (proj2 (Z.eqb_neq limit 0)) by lia. cbn [less].
    pose proof (Z.div_mod (- tot) limit ltac:(lia)) as Hdm.
    pose proof (Z.mod_pos_bound (- tot) limit Hpos) as Hmod.
    destruct (Z.ltb_spec page (- (- tot / limit))), (Z.ltb_spec (page * limit) tot);
      (done || nia).
  - destruct (Z.eqb_spec limit 0) as [-> | Hne].
    + destruct (Z.ltb_spec 0 tot); [done |]. by destruct (Z.ltb_spec tot 0).
    + cbn [less].
      pose proof (Z.div_mod (- tot) limit Hne) as Hdm.
      pose proof (Z.mod_neg_bound (- tot) limit ltac:(lia)) as Hmod.
      destruct (Z.ltb_spec page (- (- tot / limit))), (Z.ltb_spec tot (page * limit));
        (done || nia).
Qed.

(** X15. [hasNextPage] compares the rows up to the end of the current page
    with [total]: with a positive page size it holds exactly when
    [page * limit < total], that is, when rows remain beyond the current
    page; with a page size of zero (where the division gives an infinity or
    NaN) it holds exactly when there is any row at all; with a negative
    page size the comparison is the other way round. *)
Theorem hasNextPage_iff_rows_remain (st : State) :
  let p := pagination st in
  hasNextPage st
  = (if 0 <? p_limit p then p_page p * p_limit p <? total p
     else if p_limit p =? 0 then 0 <? total p
     else total p <? p_page p * p_limit p)%Z.
Proof. apply hasNextPage_compares. Qed.

(** X16. Paging stays within the rows: with a positive page size,
    [nextPage] sends nothing when the pages up to the current one hold all
    rows and otherwise fetches the following page with the same page size;
    [prevPage] sends nothing on the first page (or below) and otherwise
    fetches the page before. *)
Theorem paging_stops_at_the_ends `{!Engine}
  (url : string) {W} (remote : Remote httpE W) (w0 : W) (st : State) :
  (0 < p_limit (pagination st))%Z →
  let p := pagination st in
  (if bool_decide (total p ≤ p_page p * p_limit p)%Z
   then run remote (nextPage url st) w0 = mkRun st w0 []
   else nextPage url st = fetchWordPairs url st (Some (p_page p + 1)%Z) (Some (p_limit p))) ∧
  (if bool_decide (p_page p ≤ 1)%Z
   then run remote (prevPage url st) w0 = mkRun st w0 []
   else prevPage url st = fetchWordPairs url st (Some (p_page p - 1)%Z) (Some (p_limit p))).
Proof.
  intros Hlimit p.
  assert (Hnext := hasNextPage_compares st). cbv zeta in Hnext. fold p in Hnext.
  rewrite (proj2 (Z.ltb_lt 0 (p_limit p))) in Hnext by done.
  unfold nextPage, prevPage. fold (hasNextPage st). fold p. rewrite Hnext.
  split.
  - case_bool_decide as Hend.
    + by rewrite (proj2 (Z.ltb_ge _ _)) by lia.
    + by rewrite (proj2 (Z.ltb_lt _ _)) by lia.
  - case_bool_decide as Hend.
    + by rewrite (proj2 (Z.ltb_ge _ _)) by lia.
    + by rewrite (proj2 (Z.ltb_lt _ _)) by lia.
Qed.

Lemma paging_stops_at_the_ends_witness :
  calls (run Examples.accepting (prevPage "http://localhost:8000" Examples.second_page) tt)
  = [call GetSession;
     call (Fetch AsWordPairsResponse
             (mkRequest "http://localhost:8000/api/word-pairs?page=1&limit=20" "GET"
                [("Content-Type", "application/json"); ("Authorization", "Bearer token-1")]
                None))] ∧
  calls (run Examples.accepting
           (nextPage "http://localhost:8000"
              (mkState [] false None (mkPagination 3 20 45))) tt)
  = [].
Proof.
  assert (H := paging_stops_at_the_ends "http://localhost:8000" Examples.accepting tt
                 (mkState [] false None (mkPagination 3 20 45))).
  cbv zeta in H. destruct H as (Hnext & _).
  - reflexivity.
  - split; [reflexivity |].
    rewrite bool_decide_eq_true_2 in Hnext by (simpl; lia).
    by rewrite Hnext.
Defined.

(** X17. Create then delete: when [createWordPair] succeeds with a pair
    whose id is new to the mirror and [deleteWordPair] of that id, called
    from the next render, succeeds too, pairs and pagination are back to
    what they were before the two calls (the total being non-negative),
    with [loading] false and no error; when the delete fails, the created
    pair stays at the head of the mirror and in the total. *)
Theorem createWordPair_then_deleteWordPair `{!Engine}
  (url : string) {W} (remote : Remote httpE W) (w0 w1 : W) (st : State)
  (word1 word2 : string) (pairType description : option string) (newPair : WordPair.t) :
  (0 ≤ total (pagination st))%Z →
  snd (returned (run remote (createWordPair url st word1 word2 pairType description) w0))
  = Fulfilled newPair →
  WordPair.id newPair ∉ map WordPair.id (pairs st) →
  let created :=
    fst (returned (run remote (createWordPair url st word1 word2 pairType description) w0)) in
  let deleted := returned (run remote (deleteWordPair url created (WordPair.id newPair)) w1) in
  match snd deleted with
  | Fulfilled _ =>
      pairs (fst deleted) = pairs st ∧ pagination (fst deleted) = pagination st ∧
      loading (fst deleted) = false ∧ error (fst deleted) = None
  | Rejected _ =>
      pairs (fst deleted) = newPair :: pairs st ∧
      total (pagination (fst deleted)) = (total (pagination st) + 1)%Z
  end.
Proof.
  intros Htotal Hcreated Hfresh created deleted.
  assert (pairs created = newPair :: pairs st
          ∧ pagination created
            = mkPagination (p_page (pagination st)) (p_limit (pagination st))
                (total (pagination st) + 1)) as [Hpairs Hpagination].
  { subst created. revert Hcreated. unfold createWordPair. rewrite run_bind. cbn zeta.
    cbn [returned run].
    destruct (returned (run remote (makeAuthenticatedRequest url _ _ _ _) w0)); simpl;
      [| discriminate].
    by intros [= ->]. }
  subst deleted. unfold deleteWordPair. rewrite run_bind. cbn zeta. cbn [returned run].
  destruct (returned (run remote (makeAuthenticatedRequest url _ _ _ _) w1)); simpl.
  - rewrite Hpairs, Hpagination. simpl. split_and!; try done.
    + rewrite filter_cons_False by (intros Hne; done).
      apply filter_all. intros p Hp Hid. apply Hfresh. rewrite <- Hid.
      by apply list_elem_of_fmap_2.
    + destruct (pagination st) as [pg lim tot]. simpl in *. f_equal. lia.
  - by rewrite Hpairs, Hpagination.
Qed.

Lemma createWordPair_then_deleteWordPair_witness :
  returned (run Examples.accepting
              (deleteWordPair "http://localhost:8000"
                 (fst (returned (run Examples.accepting
                                   (createWordPair "http://localhost:8000" initial
                                      "big" "small" (Some "antonym") None) tt)))
                 "pair-1") tt)
  = (initial, Fulfilled tt).
Proof.
  assert (H := createWordPair_then_deleteWordPair "http://localhost:8000" Examples.accepting
                 tt tt initial "big" "small" (Some "antonym") None Examples.big_small).
  cbv zeta in H. destruct H as (_ & _ & _ & _).
  - simpl. lia.
  - reflexivity.
  - apply not_elem_of_nil.
  - reflexivity.
Defined.

Lemma trim_not_empty `{!Engine} (s : string) : ascii_conforming → trim s ≠ "" → s ≠ "".
Proof. intros Hconf Hs ->. apply Hs. by destruct (Hconf "" eq_refl) as [-> _]. Qed.

(** X18. The form of the word-pairs page sends nothing while one of the two
    words is blank, that is, empty after the engine's [trim]: it only shows
    "Both words are required" and leaves the hook and the form as they are.
    Otherwise, with a session, it sends exactly one request to the
    service, a PUT when a pair is being edited and a POST when not, whose
    body carries both words trimmed, neither of them empty, and it shows
    one notification. *)
Theorem handleSubmit_sends_trimmed_words `{!Engine}
  (url : string) {W} (remote : Remote httpE W) (w0 : W) (st : State) (page : PairsPage)
  (session : Session) :
  ascii_conforming →
  fst (remote _ GetSession w0) = Fulfilled (Some session) →
  let form := formData page in
  let r := run remote (handleSubmit url st page) w0 in
  if bool_decide (trim (f_word1 form) = "" ∨ trim (f_word2 form) = "")
  then r = mkRun (st, page, [toast_error "Both words are required"]) w0 []
  else ∃ req body,
         calls r = [call GetSession; call (Fetch AsWordPair req)] ∧
         WordPairs.body req = Some body ∧
         ("word1", Some (trim (f_word1 form))) ∈ body ∧
         ("word2", Some (trim (f_word2 form))) ∈ body ∧
         (("word1", Some "") ∉ body) ∧ (("word2", Some "") ∉ body) ∧
         method req = (match editingPair page with Some _ => "PUT" | None => "POST" end) ∧
         length (snd (returned r)) = 1.
Proof.
  intros Hconf Hsession form r. subst r. unfold handleSubmit. fold form.
  case_bool_decide as Hblank.
  - destruct Hblank as [-> | ->]; [done |]. by rewrite orb_true_r.
  - assert (trim (f_word1 form) ≠ "" ∧ trim (f_word2 form) ≠ "") as [H1 H2] by tauto.
    rewrite !bool_decide_eq_false_2 by done. cbn [orb].
    destruct (editingPair page) as [editing |].
    + rewrite run_bind. cbn zeta. unfold updateWordPair. rewrite run_bind. cbn zeta.
      rewrite (request_with_session url remote w0 session _ _ _ _ Hsession).
      eexists _, _. split.
      { cbn [calls run app returned]. reflexivity. }
      split; [reflexivity |].
      unfold updatePayload, when_truthy. cbn [u_word1 u_word2 u_pair_type u_description].
      rewrite !bool_decide_eq_false_2 by (by apply trim_not_empty).
      split_and!.
      * left.
      * right. left.
      * intros Hin. repeat (apply elem_of_cons in Hin as [Hin | Hin]; [congruence |]).
        apply elem_of_app in Hin as [Hin | Hin].
        { destruct (f_pairType form) as [| c t]; simpl in Hin.
          - by apply elem_of_nil in Hin.
          - apply list_elem_of_singleton in Hin. congruence. }
        apply list_elem_of_singleton in Hin. congruence.
      * intros Hin. repeat (apply elem_of_cons in Hin as [Hin | Hin]; [congruence |]).
        apply elem_of_app in Hin as [Hin | Hin].
        { destruct (f_pairType form) as [| c t]; simpl in Hin.
          - by apply elem_of_nil in Hin.
          - apply list_elem_of_singleton in Hin. congruence. }
        apply list_elem_of_singleton in Hin. congruence.
      * reflexivity.
      * cbn [returned run].
        by destruct (returned (run remote (makeAuthenticatedRequest url _ _ _ _) w0)).
    + rewrite run_bind. cbn zeta. unfold createWordPair. rewrite run_bind. cbn zeta.
      rewrite (request_with_session url remote w0 session _ _ _ _ Hsession).
      eexists _, _. split.
      { cbn [calls run app returned]. reflexivity. }
      split; [reflexivity |].
      split_and!.
      * left.
      * right. left.
      * intros Hin. repeat (apply elem_of_cons in Hin as [Hin | Hin]; [congruence |]).
        by apply elem_of_nil in Hin.
      * intros Hin. repeat (apply elem_of_cons in Hin as [Hin | Hin]; [congruence |]).
        by apply elem_of_nil in Hin.
      * reflexivity.
      * cbn [returned run].
        by destruct (returned (run remote (makeAuthenticatedRequest url _ _ _ _) w0)).
Qed.

Lemma handleSubmit_sends_trimmed_words_witness :
  calls (run Examples.accepting
           (handleSubmit "http://localhost:8000" initial
              (mkPairsPage true None (mkFormData " big" "small " "antonym" " "))) tt)
  = [call GetSession;
     call (Fetch AsWordPair
             (mkRequest "http://localhost:8000/api/word-pairs" "POST"
                [("Content-Type", "application/json"); ("Authorization", "Bearer token-1")]
                (Some [("word1", Some "big"); ("word2", Some "small");
                       ("pair_type", Some "antonym"); ("description", None);
                       ("user_id", Some "")])))].
Proof.
  assert (H := handleSubmit_sends_trimmed_words "http://localhost:8000" Examples.accepting tt
                 initial (mkPairsPage true None (mkFormData " big" "small " "antonym" " "))
                 Examples.session).
  cbv zeta in H. destruct H as (req & body & _).
  - intros s _. split; reflexivity.
  - reflexivity.
  - reflexivity.
Defined.

End WordPairsMore.

(** ** Normalizing twice *)

Section Normalize.
Import FavoriteWords AsciiText.

Local Notation "s +++ t" := (String.append s t) (at level 60, right associativity).

Lemma append_cons (c : ascii) (s t : string) : String c s +++ t = String c (s +++ t).
Proof. reflexivity. Qed.

Lemma append_empty_r (s : string) : s +++ "" = s.
Proof. induction s as [| c s IH]; [done |]. by rewrite append_cons, IH. Qed.

Lemma append_assoc (s t u : string) : (s +++ t) +++ u = s +++ (t +++ u).
Proof. induction s as [| c s IH]; [done |]. by rewrite !append_cons, IH. Qed.

Lemma rev_app_append (s t : string) : String.rev_app s t = String.rev s +++ t.
Proof.
  revert t. induction s as [| c s IH]; intros t; [done |].
  unfold String.rev. simpl. rewrite (IH (String c t)), (IH (String c "")).
  by rewrite append_assoc.
Qed.

Lemma rev_cons (c : ascii) (s : string) :
  String.rev (String c s) = String.rev s +++ String c "".
Proof. unfold String.rev at 1. simpl. apply rev_app_append. Qed.

Lemma rev_append (s t : string) : String.rev (s +++ t) = String.rev t +++ String.rev s.
Proof.
  induction s as [| c s IH].
  - change (String.rev "") with "". by rewrite append_empty_r.
  - by rewrite append_cons, !rev_cons, IH, append_assoc.
Qed.

Lemma trimStart_snoc (s : string) (c : ascii) :
  trimStart (s +++ String c "")
  = match trimStart s with
    | "" => trimStart (String c "")
    | t => t +++ String c ""
    end.
Proof.
  induction s as [| d s IH]; [by simpl; destruct (is_white_space c) |].
  rewrite append_cons. simpl. by destruct (is_white_space d).
Qed.

(** [trimEnd], read from the front. *)
Lemma trimEnd_cons (c : ascii) (s : string) :
  trimEnd (String c s)
  = match trimEnd s with
    | "" => if is_white_space c then "" else String c ""
    | t => String c t
    end.
Proof.
  unfold trimEnd. rewrite rev_cons, trimStart_snoc.
  destruct (trimStart (String.rev s)) as [| d t] eqn:Hs.
  - simpl. by destruct (is_white_space c).
  - rewrite rev_append. change (String.rev (String c "")) with (String c "").
    rewrite append_cons. change ("" +++ String.rev (String d t)) with (String.rev (String d t)).
    rewrite rev_cons. destruct (String.rev t); by rewrite ?append_cons.
Qed.

Lemma trimEnd_idempotent (s : string) : trimEnd (trimEnd s) = trimEnd s.
Proof.
  induction s as [| c s IH]; [done |].
  rewrite trimEnd_cons. destruct (trimEnd s) as [| d t] eqn:Hs.
  - destruct (is_white_space c) eqn:Hc; [done |].
    rewrite trimEnd_cons. change (trimEnd "") with "". by rewrite Hc.
  - rewrite trimEnd_cons, IH. done.
Qed.

Lemma trimStart_trimEnd_trimStart (s : string) :
  trimStart (trimEnd (trimStart s)) = trimEnd (trimStart s).
Proof.
  induction s as [| c s IH]; [done |].
  simpl. destruct (is_white_space c) eqn:Hc; [done |].
  rewrite trimEnd_cons. destruct (trimEnd s); rewrite ?Hc; simpl; by rewrite Hc.
Qed.

Lemma trim_idempotent (s : string) : trim (trim s) = trim s.
Proof. unfold trim. by rewrite trimStart_trimEnd_trimStart, trimEnd_idempotent. Qed.

Lemma lower_char_white_space (c : ascii) :
  is_white_space (lower_char c) = is_white_space c.
Proof. destruct c as [[] [] [] [] [] [] [] []]; reflexivity. Qed.

Lemma lower_char_idempotent (c : ascii) : lower_char (lower_char c) = lower_char c.
Proof. destruct c as [[] [] [] [] [] [] [] []]; reflexivity. Qed.

Lemma toLowerCase_idempotent (s : string) : toLowerCase (toLowerCase s) = toLowerCase s.
Proof.
  induction s as [| c s IH]; simpl; [done |]. by rewrite lower_char_idempotent, IH.
Qed.

Lemma trimStart_toLowerCase (s : string) :
  trimStart (toLowerCase s) = toLowerCase (trimStart s).
Proof.
  induction s as [| c s IH]; simpl; [done |].
  rewrite lower_char_white_space. by destruct (is_white_space c).
Qed.

Lemma trimEnd_toLowerCase (s : string) :
  trimEnd (toLowerCase s) = toLowerCase (trimEnd s).
Proof.
  induction s as [| c s IH]; [done |].
  cbn [toLowerCase]. rewrite !trimEnd_cons, IH, lower_char_white_space.
  destruct (trimEnd s); simpl; [by destruct (is_white_space c) | done].
Qed.

Lemma lower_char_ascii (c : ascii) :
  (nat_of_ascii (lower_char c) <? 128)%nat = (nat_of_ascii c <? 128)%nat.
Proof. destruct c as [[] [] [] [] [] [] [] []]; reflexivity. Qed.

Lemma is_ascii_text_toLowerCase (s : string) :
  is_ascii_text (toLowerCase s) = is_ascii_text s.
Proof.
  induction s as [| c s IH]; [done |].
  cbn [toLowerCase is_ascii_text]. by rewrite lower_char_ascii, IH.
Qed.

(** Trimming and lower-casing ASCII text twice is doing it once. *)
Lemma ascii_normal_form_idempotent (w : string) :
  toLowerCase (trim (toLowerCase (trim w))) = toLowerCase (trim w).
Proof.
  unfold trim.
  by rewrite trimStart_toLowerCase, trimEnd_toLowerCase, toLowerCase_idempotent,
       trimStart_trimEnd_trimStart, trimEnd_idempotent.
Qed.

Lemma normalize_idempotent `{!Engine} (w : string) :
  ascii_conforming → is_ascii_text w = true → normalize (normalize w) = normalize w.
Proof.
  intros Hconf Hw. rewrite (normalize_ascii w Hconf Hw).
  rewrite normalize_ascii; [| done |].
  - apply ascii_normal_form_idempotent.
  - rewrite is_ascii_text_toLowerCase. by apply is_ascii_text_trim.
Qed.

(** X19. In a word that [addFavorite] has just added, [isFavorite]
    recognises a favorite, and the normalized word is in the mirror; when
    [addFavorite] returns [false], the mirror is the one from before.
    Trimming and lower-casing as [AsciiText] does is idempotent, so on
    ASCII text normalizing is, and there the mirror can be used as it is
    shown: [isFavorite] also recognises the word in the form in which the
    mirror holds it. *)
Theorem mirrored_word_is_recognised `{!Engine}
  {W} (remote : Remote favoritesE W) (w0 : W) (user : option User) (st : State) (w : string) :
  let r := run remote (addFavorite user st w) w0 in
  AsciiText.toLowerCase (AsciiText.trim (AsciiText.toLowerCase (AsciiText.trim w)))
  = AsciiText.toLowerCase (AsciiText.trim w) ∧
  (ascii_conforming → is_ascii_text w = true → normalize (normalize w) = normalize w) ∧
  if snd (returned r)
  then normalize w ∈ favorites (fst (returned r)) ∧
       isFavorite (fst (returned r)) w = true ∧
       (ascii_conforming → is_ascii_text w = true →
        isFavorite (fst (returned r)) (normalize w) = true)
  else favorites (fst (returned r)) = favorites st.
Proof.
  split; [apply ascii_normal_form_idempotent |].
  split; [apply normalize_idempotent |].
  destruct user as [u |]; simpl; [| done].
  destruct (remote _ (InsertFavorite (user_id u) (FavoriteWords.normalize w)) w0)
    as [[[d [e |]] | e] w1]; simpl; try done.
  - case_bool_decide; simpl; [| done].
    unfold isFavorite, includes. simpl.
    assert (normalize w ∈ new_Set (favorites st ++ [normalize w])) as Hin.
    { apply elem_of_new_Set, elem_of_app. right. left. }
    split_and!; [done | by apply bool_decide_eq_true_2 |].
    intros Hconf Hw. rewrite normalize_idempotent by done. by apply bool_decide_eq_true_2.
  - unfold isFavorite, includes. simpl.
    assert (normalize w ∈ new_Set (normalize w :: favorites st)) as Hin.
    { apply elem_of_new_Set. left. }
    split_and!; [done | by apply bool_decide_eq_true_2 |].
    intros Hconf Hw. rewrite normalize_idempotent by done. by apply bool_decide_eq_true_2.
Qed.

Lemma mirrored_word_is_recognised_witness :
  isFavorite
    (fst (returned (run store (addFavorite (Some Examples.owner) Examples.apple_only " Fig ")
                      Examples.two_owners)))
    "fig"
  = true.
Proof.
  assert (H := mirrored_word_is_recognised store Examples.two_owners (Some Examples.owner)
                 Examples.apple_only " Fig ").
  cbv zeta in H. destruct H as (_ & _ & H).
  change (snd (returned (run store (addFavorite (Some Examples.owner) Examples.apple_only
                                      " Fig ") Examples.two_owners)))
    with true in H.
  destruct H as (_ & _ & H).
  apply H; [intros s _; split; reflexivity | reflexivity].
Defined.

End Normalize.
